(** * ai_agent_chat: the chart payload extractor and the chart renderer

    A shallow embedding of the two pieces of logic of the chat front end:

    - [textRenderer] (the chat page, app/page.tsx, kept as
      src/unnamed/part_001): finds a JSON chart payload in the text of an
      assistant message, fenced form first, inline form second, and builds
      the props of the chart component;
    - [StockChart] (components/StockChart.tsx, kept as lines 79-191 of
      src/backend/README.md): derives the header figures of the chart from
      these props.

    The program is TypeScript running on a JavaScript engine, so the
    embedding carries the part of the language the two functions use:
    strings as sequences of UTF-16 code units, numbers as IEEE 754 binary64
    values (the Standard Library's [spec_float]), dynamically typed values,
    exceptions and the console as a small monad, the backtracking search of
    [String.prototype.match], [JSON.parse] and [Number.prototype.toFixed]. *)

From Stdlib Require Import List String Ascii ZArith NArith Bool Lia.
From Stdlib Require Import Floats.SpecFloat.
Import ListNotations.

Set Implicit Arguments.

(** ** Strings *)

Module JsString.

(** A JavaScript string is a sequence of UTF-16 code units. *)
Definition code_unit := N.
Definition jsstring := list code_unit.

(** ASCII literals of the source, as code units. *)
Definition js (s : string) : jsstring :=
  map N_of_ascii (list_ascii_of_string s).

(** The same, reading an apostrophe as a double quote (code unit 34), for
    literals and examples that hold JSON text. *)
Definition jq (s : string) : jsstring :=
  map (fun c => if N.eqb c 39 then 34%N else c) (js s).

Definition nl : jsstring := [10%N].

Fixpoint eqb (a b : jsstring) : bool :=
  match a, b with
  | [], [] => true
  | x :: a', y :: b' => N.eqb x y && eqb a' b'
  | _, _ => false
  end.

(** WhiteSpace and LineTerminator of ECMAScript: what [\s] matches and
    what [trim] removes. *)
Definition is_space (c : code_unit) : bool :=
  ((9 <=? c) && (c <=? 13) || (c =? 32) || (c =? 160) || (c =? 5760)
   || (8192 <=? c) && (c <=? 8202) || (c =? 8232) || (c =? 8233)
   || (c =? 8239) || (c =? 8287) || (c =? 12288) || (c =? 65279))%N.

Fixpoint trim_start (s : jsstring) : jsstring :=
  match s with
  | c :: s' => if is_space c then trim_start s' else s
  | [] => []
  end.

Definition trim_end (s : jsstring) : jsstring :=
  rev (trim_start (rev s)).

(** [String.prototype.trim]. *)
Definition trim (s : jsstring) : jsstring := trim_end (trim_start s).

Fixpoint starts_with (p s : jsstring) : bool :=
  match p, s with
  | [], _ => true
  | x :: p', y :: s' => N.eqb x y && starts_with p' s'
  | _ :: _, [] => false
  end.

(** [text.replace(pat, '')] with a string pattern: the first occurrence of
    [pat] is removed, the text is unchanged when there is none. *)
Fixpoint remove_first (pat s : jsstring) : jsstring :=
  if starts_with pat s then skipn (List.length pat) s
  else match s with
       | [] => []
       | c :: s' => c :: remove_first pat s'
       end.

Definition substring (s : jsstring) (from to : nat) : jsstring :=
  firstn (to - from) (skipn from s).

End JsString.
Import JsString.

(** ** Numbers *)

Module Number.

(** The Number type: IEEE 754 binary64. *)
Definition number := spec_float.

Definition prec : Z := 53.
Definition emax : Z := 1024.

Definition NaN : number := S754_nan.
Definition Infinity : number := S754_infinity false.
Definition zero : number := S754_zero false.

(** The Number value of an integer. *)
Definition of_Z (z : Z) : number := binary_normalize prec emax z 0 false.

Definition sub (x y : number) : number := SFsub prec emax x y.
Definition div (x y : number) : number := SFdiv prec emax x y.
Definition mul (x y : number) : number := SFmul prec emax x y.

(** [x >= y] is [y <= x]; false as soon as an operand is NaN. *)
Definition ge (x y : number) : bool := SFleb y x.

(** [x === y] on numbers. *)
Definition eqb (x y : number) : bool := SFeqb x y.

(** ToBoolean on numbers: NaN, +0 and -0 are falsy. *)
Definition truthy (x : number) : bool :=
  match x with
  | S754_nan | S754_zero _ => false
  | _ => true
  end.

(** The Number value of the decimal literal [sign digits * 10^exp10]:
    the nearest binary64 value, ties to even. *)
Definition of_decimal (neg : bool) (digits : N) (exp10 : Z) : number :=
  match digits with
  | N0 => S754_zero neg
  | Npos d =>
      match exp10 with
      | Zneg k =>
          let '(q, e, l) :=
            SFdiv_core_binary prec emax (Zpos d) 0 (Z.pow_pos 10 k) 0 in
          binary_round_aux prec emax neg q e l
      | _ => binary_round prec emax neg (Z.to_pos (Zpos d * 10 ^ exp10)) 0
      end
  end.

End Number.
Import Number.

(** ** Values, exceptions and the console *)

(** The values a parsed JSON text and the props of a component can hold.
    An object keeps its own properties in insertion order, with distinct
    keys. *)
Unset Elimination Schemes.
Inductive value :=
| VUndefined
| VNull
| VBool (b : bool)
| VNum (x : number)
| VStr (s : jsstring)
| VArr (items : list value)
| VObj (fields : list (jsstring * value)).
Set Elimination Schemes.

Inductive exn := SyntaxError | TypeError.

Inductive outcome (A : Type) :=
| Ok (a : A)
| Throw (e : exn).
Arguments Ok {A} a.
Arguments Throw {A} e.

(** One call of [console.error(message, error)]. *)
Record log_entry := { message : jsstring; error : exn }.
Definition console := list log_entry.

(** A computation may throw and may write to the console. *)
Definition M (A : Type) := console -> outcome A * console.

Definition ret {A} (a : A) : M A := fun w => (Ok a, w).
Definition throw {A} (e : exn) : M A := fun w => (Throw e, w).
Definition bind {A B} (m : M A) (k : A -> M B) : M B :=
  fun w => match m w with
           | (Ok a, w') => k a w'
           | (Throw e, w') => (Throw e, w')
           end.
Definition try_catch {A} (body : M A) (handler : exn -> M A) : M A :=
  fun w => match body w with
           | (Ok a, w') => (Ok a, w')
           | (Throw e, w') => handler e w'
           end.
Definition console_error (msg : jsstring) (e : exn) : M unit :=
  fun w => (Ok tt, w ++ [{| message := msg; error := e |}]).
Definition lift {A} (o : outcome A) : M A := fun w => (o, w).

Declare Scope js_scope.
Delimit Scope js_scope with js.
Notation "x <- m ;; k" := (bind m (fun x => k))
  (at level 61, m at next level, right associativity) : js_scope.
Notation "m ;;; k" := (bind m (fun _ => k))
  (at level 61, right associativity) : js_scope.
Open Scope js_scope.

(** ToBoolean. *)
Definition truthy (v : value) : bool :=
  match v with
  | VUndefined | VNull => false
  | VBool b => b
  | VNum x => Number.truthy x
  | VStr s => match s with [] => false | _ => true end
  | VArr _ | VObj _ => true
  end.

(** [a || b] on values. *)
Definition js_or (a b : value) : value := if truthy a then a else b.

(** [a === b] where one side is a primitive literal of the source: two
    numbers by IEEE equality, two strings by their code units. *)
Definition strict_eq (a b : value) : bool :=
  match a, b with
  | VUndefined, VUndefined | VNull, VNull => true
  | VBool x, VBool y => Bool.eqb x y
  | VNum x, VNum y => Number.eqb x y
  | VStr x, VStr y => JsString.eqb x y
  | _, _ => false
  end.

Fixpoint lookup (key : jsstring) (fields : list (jsstring * value)) : value :=
  match fields with
  | [] => VUndefined
  | (k, v) :: rest => if JsString.eqb k key then v else lookup key rest
  end.

(** [v.key] for the identifiers the source reads ([type], [data], [ticker],
    [company_name], [period], [current_price], [price], [length]): none of
    them is defined on a prototype, except [length] on arrays and strings.
    Reading a property of [null] or [undefined] throws a TypeError. *)
Definition get_prop (v : value) (key : jsstring) : outcome value :=
  match v with
  | VUndefined | VNull => Throw TypeError
  | VObj fields => Ok (lookup key fields)
  | VArr items =>
      if JsString.eqb key (js "length")
      then Ok (VNum (of_Z (Z.of_nat (List.length items))))
      else Ok VUndefined
  | VStr s =>
      if JsString.eqb key (js "length")
      then Ok (VNum (of_Z (Z.of_nat (List.length s))))
      else Ok VUndefined
  | VBool _ | VNum _ => Ok VUndefined
  end.

(** Decimal digits of a natural number. *)
Fixpoint decimal_aux (fuel : nat) (n : N) (acc : jsstring) : jsstring :=
  match fuel with
  | O => acc
  | S fuel' =>
      let acc' := (48 + n mod 10)%N :: acc in
      if (n <? 10)%N then acc' else decimal_aux fuel' (n / 10)%N acc'
  end.
Definition decimal (n : N) : jsstring :=
  decimal_aux (S (N.to_nat (N.log2 n))) n [].

(** [v[i]] for an integer index. *)
Definition get_index (v : value) (i : nat) : outcome value :=
  match v with
  | VUndefined | VNull => Throw TypeError
  | VArr items => Ok (nth i items VUndefined)
  | VStr s => Ok (match nth_error s i with
                  | Some c => VStr [c]
                  | None => VUndefined
                  end)
  | VObj fields => Ok (lookup (decimal (N.of_nat i)) fields)
  | VBool _ | VNum _ => Ok VUndefined
  end.

(** [v?.key]. *)
Definition get_prop_opt (v : value) (key : jsstring) : outcome value :=
  match v with
  | VUndefined | VNull => Ok VUndefined
  | _ => get_prop v key
  end.

(** ** Regular expressions

    The two patterns of the source are concatenations of literal
    characters, starred or optional character classes and one capture
    group.  [exec] is the backtracking matcher of ECMAScript restricted to
    these forms: a greedy quantifier tries the longest repetition first, a
    lazy one the shortest, and the first alternative that lets the rest of
    the pattern match wins. *)

Module RegExp.

Inductive atom :=
| Chr (c : code_unit)                          (* a literal character *)
| Star (greedy : bool) (p : code_unit -> bool) (* [p*] or [p*?] *)
| Opt (p : code_unit -> bool)                  (* [p?] *)
| Open                                         (* [(] *)
| Close.                                       (* [)] *)

Definition pattern := list atom.

Definition lit (s : jsstring) : pattern := map Chr s.

(** Where a match ends, and where its capture group starts and ends. *)
Record found := { stop : nat; group : nat * nat }.

Section Quantifiers.
Variable p : code_unit -> bool.
Variable k : jsstring -> nat -> option found.

Fixpoint star_greedy (s : jsstring) (pos : nat) : option found :=
  match s with
  | c :: s' =>
      if p c then
        match star_greedy s' (S pos) with
        | Some r => Some r
        | None => k s pos
        end
      else k s pos
  | [] => k s pos
  end.

Fixpoint star_lazy (s : jsstring) (pos : nat) : option found :=
  match k s pos with
  | Some r => Some r
  | None =>
      match s with
      | c :: s' => if p c then star_lazy s' (S pos) else None
      | [] => None
      end
  end.

Definition optional (s : jsstring) (pos : nat) : option found :=
  match s with
  | c :: s' =>
      if p c then
        match k s' (S pos) with
        | Some r => Some r
        | None => k s pos
        end
      else k s pos
  | [] => k s pos
  end.
End Quantifiers.

(** Match the pattern at the head of [s], which starts at offset [pos] of
    the text. *)
Fixpoint exec (r : pattern) (g : nat * nat) (s : jsstring) (pos : nat)
  : option found :=
  match r with
  | [] => Some {| stop := pos; group := g |}
  | Chr c :: r' =>
      match s with
      | c' :: s' => if N.eqb c' c then exec r' g s' (S pos) else None
      | [] => None
      end
  | Star true p :: r' => star_greedy p (exec r' g) s pos
  | Star false p :: r' => star_lazy p (exec r' g) s pos
  | Opt p :: r' => optional p (exec r' g) s pos
  | Open :: r' => exec r' (pos, snd g) s pos
  | Close :: r' => exec r' (fst g, pos) s pos
  end.

(** The leftmost position at which the pattern matches. *)
Fixpoint search (r : pattern) (s : jsstring) (pos : nat)
  : option (nat * found) :=
  match exec r (pos, pos) s pos with
  | Some f => Some (pos, f)
  | None =>
      match s with
      | [] => None
      | _ :: s' => search r s' (S pos)
      end
  end.

(** The result of [text.match(r)] for a pattern without the [g] flag:
    the matched substring and the substring of the capture group. *)
Record match_result := { matched : jsstring; captured : jsstring }.

Definition String_match (text : jsstring) (r : pattern) : option match_result :=
  match search r text 0 with
  | Some (start, f) =>
      Some {| matched := substring text start (stop f);
              captured := substring text (fst (group f)) (snd (group f)) |}
  | None => None
  end.

Definition any (c : code_unit) : bool := true.
Definition newline (c : code_unit) : bool := N.eqb c 10.
Definition not_brace (c : code_unit) : bool :=
  negb (N.eqb c 123 || N.eqb c 125).

End RegExp.
Import RegExp.

(** ** JSON.parse *)

Module JSON.

Definition is_ws (c : code_unit) : bool :=
  ((c =? 9) || (c =? 10) || (c =? 13) || (c =? 32))%N.

Fixpoint skip_ws (s : jsstring) : jsstring :=
  match s with
  | c :: s' => if is_ws c then skip_ws s' else s
  | [] => []
  end.

(** The rest of [s] after the character [c], if [s] starts with it. *)
Definition expect (c : code_unit) (s : jsstring) : option jsstring :=
  match s with
  | x :: s' => if N.eqb x c then Some s' else None
  | [] => None
  end.

(** The rest of [s] after the word [w], if [s] starts with it. *)
Definition keyword (w s : jsstring) : option jsstring :=
  if starts_with w s then Some (skipn (List.length w) s) else None.

Definition is_digit (c : code_unit) : bool := ((48 <=? c) && (c <=? 57))%N.

Definition hex_digit (c : code_unit) : option N :=
  if is_digit c then Some (c - 48)%N
  else if ((97 <=? c) && (c <=? 102))%N then Some (c - 87)%N
  else if ((65 <=? c) && (c <=? 70))%N then Some (c - 55)%N
  else None.

(** The character an escape letter stands for. *)
Definition escape (e : code_unit) : option code_unit :=
  (if e =? 34 then Some 34 else if e =? 92 then Some 92
   else if e =? 47 then Some 47 else if e =? 98 then Some 8
   else if e =? 102 then Some 12 else if e =? 110 then Some 10
   else if e =? 114 then Some 13 else if e =? 116 then Some 9
   else None)%N.

(** The characters of a string literal, after its opening quote: up to
    the closing quote, with the escapes replaced; a control character or
    a bad escape is an error. *)
Fixpoint parse_chars (s acc : jsstring) : option (jsstring * jsstring) :=
  match s with
  | [] => None
  | c :: s1 =>
      if (c =? 34)%N then Some (rev acc, s1)
      else if (c =? 92)%N then
        match s1 with
        | [] => None
        | e :: s2 =>
            if (e =? 117)%N then
              match s2 with
              | a :: b :: c :: d :: s3 =>
                  match hex_digit a, hex_digit b, hex_digit c, hex_digit d with
                  | Some a, Some b, Some c, Some d =>
                      parse_chars s3
                        ((((a * 16 + b) * 16 + c) * 16 + d)%N :: acc)
                  | _, _, _, _ => None
                  end
              | _ => None
              end
            else
              match escape e with
              | Some x => parse_chars s2 (x :: acc)
              | None => None
              end
        end
      else if (c <? 32)%N then None
      else parse_chars s1 (c :: acc)
  end.

(** A maximal run of decimal digits: its value, its length, the rest. *)
Fixpoint take_digits (s : jsstring) (val : N) (len : nat)
  : N * nat * jsstring :=
  match s with
  | c :: s' => if is_digit c then take_digits s' (val * 10 + (c - 48))%N (S len)
               else (val, len, s)
  | [] => (val, len, s)
  end.

Definition parse_exponent (s : jsstring) : option (Z * jsstring) :=
  match s with
  | c :: s1 =>
      if ((c =? 101) || (c =? 69))%N then
        let '(neg, s2) :=
          match expect 45%N s1, expect 43%N s1 with
          | Some s2, _ => (true, s2)
          | None, Some s2 => (false, s2)
          | None, None => (false, s1)
          end in
        match take_digits s2 0 0 with
        | (_, O, _) => None
        | (e, _, s3) => Some (if neg then (- Z.of_N e)%Z else Z.of_N e, s3)
        end
      else Some (0%Z, s)
  | [] => Some (0%Z, s)
  end.

(** A number literal: an optional minus sign, then 0 or a run of digits
    that does not start with 0, then an optional fraction (a dot and at
    least one digit) and an optional exponent (e or E, an optional sign,
    at least one digit). *)
Definition parse_number (s : jsstring) : option (number * jsstring) :=
  let '(neg, s1) :=
    match expect 45%N s with
    | Some s1 => (true, s1)
    | None => (false, s)
    end in
  let int_part :=
    match expect 48%N s1 with
    | Some s2 => Some (0%N, s2)
    | None => match take_digits s1 0 0 with
              | (_, O, _) => None
              | (i, _, s2) => Some (i, s2)
              end
    end in
  match int_part with
  | None => None
  | Some (i, s2) =>
      let frac_part :=
        match expect 46%N s2 with
        | Some s3 =>
            match take_digits s3 i 0 with
            | (_, O, _) => None
            | (m, len, s4) => Some (m, len, s4)
            end
        | None => Some (i, O, s2)
        end in
      match frac_part with
      | None => None
      | Some (m, len, s4) =>
          match parse_exponent s4 with
          | None => None
          | Some (e, s5) =>
              Some (of_decimal neg m (e - Z.of_nat len), s5)
          end
      end
  end.

(** Define an own property: a duplicate key keeps its place and takes the
    new value. *)
Fixpoint define (k : jsstring) (v : value) (fields : list (jsstring * value))
  : list (jsstring * value) :=
  match fields with
  | [] => [(k, v)]
  | (k', v') :: rest =>
      if JsString.eqb k' k then (k, v) :: rest
      else (k', v') :: define k v rest
  end.

(** A value that is not an object or an array. *)
Definition parse_scalar (s : jsstring) : option (value * jsstring) :=
  match expect 34%N s with
  | Some s1 =>
      match parse_chars s1 [] with
      | Some (str, s2) => Some (VStr str, s2)
      | None => None
      end
  | None =>
      match keyword (js "true") s, keyword (js "false") s,
            keyword (js "null") s with
      | Some s1, _, _ => Some (VBool true, s1)
      | None, Some s1, _ => Some (VBool false, s1)
      | None, None, Some s1 => Some (VNull, s1)
      | None, None, None =>
          match parse_number s with
          | Some (x, s1) => Some (VNum x, s1)
          | None => None
          end
      end
  end.

(** A value at the head of [s]; [parse_members] and [parse_elements]
    continue an object and an array whose opening bracket is read.  The
    fuel bounds the nesting of the calls; twice the length of the text is
    enough (see [parse_value_fuel]). *)
Fixpoint parse_value (fuel : nat) (s : jsstring) : option (value * jsstring) :=
  match fuel with
  | O => None
  | S fuel' =>
      match expect 123%N s, expect 91%N s with
      | Some s1, _ =>
          match expect 125%N (skip_ws s1) with
          | Some s2 => Some (VObj [], s2)
          | None => parse_members fuel' (skip_ws s1) []
          end
      | None, Some s1 =>
          match expect 93%N (skip_ws s1) with
          | Some s2 => Some (VArr [], s2)
          | None => parse_elements fuel' (skip_ws s1) []
          end
      | None, None => parse_scalar s
      end
  end
with parse_members (fuel : nat) (s : jsstring) (acc : list (jsstring * value))
  : option (value * jsstring) :=
  match fuel with
  | O => None
  | S fuel' =>
      match expect 34%N s with
      | Some s1 =>
          match parse_chars s1 [] with
          | Some (k, s2) =>
              match expect 58%N (skip_ws s2) with
              | Some s3 =>
                  match parse_value fuel' (skip_ws s3) with
                  | Some (v, s4) =>
                      match expect 44%N (skip_ws s4), expect 125%N (skip_ws s4) with
                      | Some s5, _ =>
                          parse_members fuel' (skip_ws s5) (define k v acc)
                      | None, Some s5 => Some (VObj (define k v acc), s5)
                      | None, None => None
                      end
                  | None => None
                  end
              | None => None
              end
          | None => None
          end
      | None => None
      end
  end
with parse_elements (fuel : nat) (s : jsstring) (acc : list value)
  : option (value * jsstring) :=
  match fuel with
  | O => None
  | S fuel' =>
      match parse_value fuel' s with
      | Some (v, s1) =>
          match expect 44%N (skip_ws s1), expect 93%N (skip_ws s1) with
          | Some s2, _ => parse_elements fuel' (skip_ws s2) (acc ++ [v])
          | None, Some s2 => Some (VArr (acc ++ [v]), s2)
          | None, None => None
          end
      | None => None
      end
  end.

(** [JSON.parse(text)]: one value between optional white space, a
    SyntaxError otherwise. *)
Definition parse (text : jsstring) : outcome value :=
  match parse_value (2 * List.length text + 2) (skip_ws text) with
  | Some (v, rest) =>
      match skip_ws rest with
      | [] => Ok v
      | _ => Throw SyntaxError
      end
  | None => Throw SyntaxError
  end.

End JSON.

(** ** The chart payload extractor: [textRenderer] (src/unnamed/part_001) *)

(** The props of [<StockChart .../>].  TypeScript declares [ticker],
    [company_name] and [period] as strings, [data] as an array of price
    points and [current_price] as a number; at run time they hold whatever
    the parsed JSON holds. *)
Record StockChartProps := {
  ticker : value;
  company_name : value;
  period : value;
  data : value;
  current_price : value
}.

(** What [textRenderer] returns: the text as it is, or the block made of
    the remaining prose (shown when it is not empty) and one chart
    element.  The element is not rendered here: React calls [StockChart]
    later, outside of the try blocks of [textRenderer]. *)
Inductive ReactNode :=
| Text (text : jsstring)
| ChartBlock (textWithoutJson : jsstring) (chart : StockChartProps).

(** [/```json\s*\n?([\s\S]*?)\n?```/] *)
Definition jsonBlock : pattern :=
  lit (js "```json")
  ++ [Star true is_space; Opt newline; Open; Star false any; Close; Opt newline]
  ++ lit (js "```").

(** [/\{[^{}]*"type":\s*"stock_chart"[\s\S]*?"data":\s*\[[\s\S]*?\][\s\S]*?\}/] *)
Definition inlineJson : pattern :=
  lit (js "{") ++ [Star true not_brace]
  ++ lit (jq "'type':") ++ [Star true is_space]
  ++ lit (jq "'stock_chart'") ++ [Star false any]
  ++ lit (jq "'data':") ++ [Star true is_space]
  ++ lit (js "[") ++ [Star false any]
  ++ lit (js "]") ++ [Star false any]
  ++ lit (js "}").

(** The acceptance test,
    [chartData.type === "stock_chart" && chartData.data && chartData.ticker]
    as the condition of an [if]. *)
Definition chart_condition (chartData : value) : M bool :=
  type <- lift (get_prop chartData (js "type")) ;;
  if strict_eq type (VStr (js "stock_chart")) then
    d <- lift (get_prop chartData (js "data")) ;;
    if truthy d then
      t <- lift (get_prop chartData (js "ticker")) ;;
      ret (truthy t)
    else ret false
  else ret false.

(** The body of the two inner try blocks (lines 29-45 and 55-70 hold the
    same statements): parse [source], test the parsed object, and on
    success return the block built from [text] without the first
    occurrence of [raw].  [None] stands for falling out of the [if]. *)
Definition chartFrom (text raw source : jsstring) : M (option ReactNode) :=
  chartData <- lift (JSON.parse source) ;;
  ok <- chart_condition chartData ;;
  if ok then
    let textWithoutJson := trim (remove_first raw text) in
    tk <- lift (get_prop chartData (js "ticker")) ;;
    cn <- lift (get_prop chartData (js "company_name")) ;;
    tk' <- lift (get_prop chartData (js "ticker")) ;;
    pd <- lift (get_prop chartData (js "period")) ;;
    d <- lift (get_prop chartData (js "data")) ;;
    cp <- lift (get_prop chartData (js "current_price")) ;;
    ret (Some (ChartBlock textWithoutJson
                 {| ticker := tk;
                    company_name := js_or cn tk';
                    period := js_or pd (VStr (js "1mo"));
                    data := d;
                    current_price := cp |}))
  else ret None.

Definition textRenderer (text : jsstring) : M ReactNode :=
  r <- try_catch
         (r1 <- match String_match text jsonBlock with
                | Some jsonBlockMatch =>
                    try_catch
                      (chartFrom text (matched jsonBlockMatch)
                                 (captured jsonBlockMatch))
                      (fun parseError =>
                         console_error
                           (js "Error parsing JSON from code block:")
                           parseError ;;;
                         ret None)
                | None => ret None
                end ;;
          match r1 with
          | Some node => ret (Some node)
          | None =>
              match String_match text inlineJson with
              | Some inlineJsonMatch =>
                  try_catch
                    (chartFrom text (matched inlineJsonMatch)
                               (matched inlineJsonMatch))
                    (fun parseError =>
                       console_error (js "Error parsing inline JSON:")
                                     parseError ;;;
                       ret None)
              | None => ret None
              end
          end)
         (fun e => console_error (js "Error in textRenderer:") e ;;; ret None) ;;
  match r with
  | Some node => ret node
  | None => ret (Text text)
  end.

(** The interface of the design, [extract(text) -> (payload | absent,
    strippedText)], read off the node that [textRenderer] returns. *)
Definition extract (text : jsstring) : outcome (option StockChartProps * jsstring) :=
  match fst (textRenderer text []) with
  | Ok (Text t) => Ok (None, t)
  | Ok (ChartBlock t chart) => Ok (Some chart, t)
  | Throw e => Throw e
  end.

(** ** The chart renderer: [StockChart] (src/backend/README.md, 79-191) *)

(** Two conversions of the engine stay parameters: none of their results
    reaches the output of [StockChart] when the prices are numbers below
    10^21.
    - [Number_toString x], the exponential notation that [toFixed] falls
      back to for a finite [x] of magnitude 10^21 or more;
    - [ToNumber_object v], ToNumber on a string, an array or an object
      (ToPrimitive followed by the parsing of a numeric string), which may
      throw a TypeError. *)
Record engine := {
  Number_toString : number -> jsstring;
  ToNumber_object : value -> outcome number
}.

(** The block that [StockChart] returns.  A chart keeps what the JSX reads
    from the component's variables; the class names, labels and chart
    options are constants of the source. *)
Record chart_view := {
  heading : value;             (* ticker *)
  badge : value;               (* period *)
  subtitle : value;            (* company_name *)
  price_text : jsstring;       (* current_price.toFixed(2), after a dollar sign *)
  is_positive : bool;          (* isPositive: green with TrendingUp, or red with TrendingDown *)
  sign_text : jsstring;        (* isPositive ? '+' : '' *)
  change_text : jsstring;      (* priceChange.toFixed(2) *)
  percent_text : jsstring;     (* priceChangePercent, before the percent sign *)
  series : value;              (* data of LineChart, x axis keyed by date *)
  start_text : jsstring;       (* firstPrice.toFixed(2) *)
  current_text : jsstring;     (* current_price.toFixed(2) *)
  points : value               (* data.length *)
}.

Inductive view :=
| NoData (ticker : value)    (* No data available for ticker *)
| Chart (c : chart_view).

Section Renderer.

Variable E : engine.

(** ToNumber. *)
Definition ToNumber (v : value) : outcome number :=
  match v with
  | VUndefined => Ok NaN
  | VNull => Ok zero
  | VBool b => Ok (if b then of_Z 1 else zero)
  | VNum x => Ok x
  | VStr _ | VArr _ | VObj _ => ToNumber_object E v
  end.

(** A binary arithmetic operator: ToNumber on the left operand, then on
    the right one, then the operation on numbers. *)
Definition arith (op : number -> number -> number) (a b : value)
  : M number :=
  x <- lift (ToNumber a) ;;
  y <- lift (ToNumber b) ;;
  ret (op x y).

(** [Number.prototype.toFixed(2)] on a Number: the nearest number of
    hundredths, the larger one on a tie, written with at least one digit
    before the point and two after it. *)
Definition hundredths (m : positive) (e : Z) : N :=
  match e with
  | Zneg k => Z.to_N ((200 * Zpos m + Z.pow_pos 2 k) / Z.pow_pos 2 (Pos.succ k))
  | _ => Z.to_N (100 * Zpos m * 2 ^ e)
  end.

Definition at_least_1e21 (m : positive) (e : Z) : bool :=
  match e with
  | Zneg k => (10 ^ 21 * Z.pow_pos 2 k <=? Zpos m)%Z
  | _ => (10 ^ 21 <=? Zpos m * 2 ^ e)%Z
  end.

Definition fixed_digits (n : N) : jsstring :=
  let m := decimal n in
  let m := repeat 48%N (3 - List.length m) ++ m in
  let k := List.length m in
  firstn (k - 2) m ++ js "." ++ skipn (k - 2) m.

Definition Number_toFixed2 (x : number) : jsstring :=
  match x with
  | S754_nan => js "NaN"
  | S754_infinity false => js "Infinity"
  | S754_infinity true => js "-Infinity"
  | S754_zero _ => js "0.00"
  | S754_finite s m e =>
      (if s then js "-" else [])
      ++ (if at_least_1e21 m e
          then Number_toString E (S754_finite false m e)
          else fixed_digits (hundredths m e))
  end.

(** [v.toFixed(2)]: only a Number has the method. *)
Definition toFixed2 (v : value) : M jsstring :=
  match v with
  | VNum x => ret (Number_toFixed2 x)
  | _ => throw TypeError
  end.

Definition StockChart (props : StockChartProps) : M view :=
  let ticker := ticker props in
  let company_name := company_name props in
  let period := period props in
  let data := data props in
  let current_price := current_price props in
  len <- (if truthy data then lift (get_prop data (js "length"))
          else ret VUndefined) ;;
  if negb (truthy data) || strict_eq len (VNum zero) then
    ret (NoData ticker)
  else
    first <- lift (get_index data 0) ;;
    price <- lift (get_prop_opt first (js "price")) ;;
    let firstPrice := js_or price (VNum zero) in
    priceChange <- arith sub current_price firstPrice ;;
    ratio <- arith div (VNum priceChange) firstPrice ;;
    scaled <- arith mul (VNum ratio) (VNum (of_Z 100)) ;;
    priceChangePercent <- toFixed2 (VNum scaled) ;;
    let isPositive := ge priceChange zero in
    price_text <- toFixed2 current_price ;;
    change_text <- toFixed2 (VNum priceChange) ;;
    start_text <- toFixed2 firstPrice ;;
    current_text <- toFixed2 current_price ;;
    points <- lift (get_prop data (js "length")) ;;
    ret (Chart {| heading := ticker;
                  badge := period;
                  subtitle := company_name;
                  price_text := price_text;
                  is_positive := isPositive;
                  sign_text := if isPositive then js "+" else [];
                  change_text := change_text;
                  percent_text := priceChangePercent;
                  series := data;
                  start_text := start_text;
                  current_text := current_text;
                  points := points |}).

End Renderer.

(** ** The extractor in the words of the design

    The definitions of this section follow section 4.1 of the design, not
    the source: they are what [textRenderer] is compared with. *)

(** The field [key] of a payload, [VUndefined] when it is missing. *)
Definition field (v : value) (key : jsstring) : value :=
  match v with
  | VObj fields => lookup key fields
  | _ => VUndefined
  end.

(** The acceptance test: the discriminator equals the sentinel and both
    [data] and [ticker] pass the test of the source, which is truthiness. *)
Definition accepts (v : value) : bool :=
  strict_eq (field v (js "type")) (VStr (js "stock_chart"))
  && truthy (field v (js "data"))
  && truthy (field v (js "ticker")).

(** The payload handed to the renderer, defaults applied. *)
Definition payload_of (v : value) : StockChartProps :=
  {| ticker := field v (js "ticker");
     company_name := js_or (field v (js "company_name")) (field v (js "ticker"));
     period := js_or (field v (js "period")) (VStr (js "1mo"));
     data := field v (js "data");
     current_price := field v (js "current_price") |}.

(** One attempt on a fragment [raw] of the text whose JSON source is
    [source]: the payload and the stripped text when the source parses and
    the parsed object is accepted. *)
Definition judge (text raw source : jsstring)
  : option (option StockChartProps * jsstring) :=
  match JSON.parse source with
  | Ok v => if accepts v
            then Some (Some (payload_of v), trim (remove_first raw text))
            else None
  | Throw _ => None
  end.

Definition fenced_attempt (text : jsstring) :=
  match String_match text jsonBlock with
  | Some m => judge text (matched m) (captured m)
  | None => None
  end.

Definition inline_attempt (text : jsstring) :=
  match String_match text inlineJson with
  | Some m => judge text (matched m) (matched m)
  | None => None
  end.

(** Fenced form first, inline form only if the fenced attempt fails, the
    text unchanged when both fail. *)
Definition first_accepted (text : jsstring) : option StockChartProps * jsstring :=
  match fenced_attempt text with
  | Some r => r
  | None =>
      match inline_attempt text with
      | Some r => r
      | None => (None, text)
      end
  end.

(** The three ways an attempt with pattern [r] fails. *)
Inductive attempt_fails (text : jsstring) (r : pattern)
          (source : match_result -> jsstring) : Prop :=
| no_match :
    String_match text r = None -> attempt_fails text r source
| parse_failure m e :
    String_match text r = Some m -> JSON.parse (source m) = Throw e ->
    attempt_fails text r source
| test_failure m v :
    String_match text r = Some m -> JSON.parse (source m) = Ok v ->
    accepts v = false -> attempt_fails text r source.

(** An engine to run the examples with: they keep to numeric prices below
    10^21, where neither conversion is called. *)
Definition example_engine : engine :=
  {| Number_toString := fun _ => [];
     ToNumber_object := fun _ => Ok NaN |}.

(** What [textRenderer] returns for a result of [extract]. *)
Definition node_of (r : option StockChartProps * jsstring) : ReactNode :=
  match r with
  | (Some p, t) => ChartBlock t p
  | (None, t) => Text t
  end.

(** [free_of c s]: the character [c] does not occur in [s]. *)
Definition free_of (c : code_unit) (s : jsstring) : bool :=
  forallb (fun x => negb (N.eqb x c)) s.

Definition backtick : code_unit := 96%N.

(** The fragment that [extract] accepts: [v] is the object parsed from it,
    [raw] its text.  The inline form counts only when the fenced attempt
    fails. *)
Inductive accepted_payload (text : jsstring) (v : value) (raw : jsstring) : Prop :=
| from_fenced m :
    String_match text jsonBlock = Some m ->
    JSON.parse (captured m) = Ok v -> accepts v = true ->
    raw = matched m -> accepted_payload text v raw
| from_inline m :
    attempt_fails text jsonBlock captured ->
    String_match text inlineJson = Some m ->
    JSON.parse (matched m) = Ok v -> accepts v = true ->
    raw = matched m -> accepted_payload text v raw.



(** ** The renderer in the words of the design *)

(** A computation that leaves the console as it finds it and whose outcome
    does not depend on it. *)
Definition effect_free {A} (m : M A) : Prop :=
  exists o, forall w, m w = (o, w).

(** The derived figures as section 4.2 gives them, from the current price
    [cp] and the first price [p] of the series. *)
Definition claimed_change (E : engine) (cp p : number) : jsstring :=
  Number_toFixed2 E (sub cp p).
Definition claimed_percent (E : engine) (cp p : number) : jsstring :=
  Number_toFixed2 E (mul (div (sub cp p) p) (of_Z 100)).
Definition claimed_positive (cp p : number) : bool :=
  ge (sub cp p) zero.

(** ** Example inputs *)

Definition point (date : string) (price volume : value) : value :=
  VObj [(js "date", VStr (js date)); (js "price", price); (js "volume", volume)].

Definition ten : number := of_Z 10.

Definition props_with (series : list value) (current : value) : StockChartProps :=
  {| ticker := VStr (js "AAPL");
     company_name := VStr (js "Apple Inc.");
     period := VStr (js "1mo");
     data := VArr series;
     current_price := current |}.

(** The payload of the first scenario of the design. *)
Definition aapl_props : StockChartProps :=
  props_with
    [point "2024-01-01" (VNum (of_decimal false 15025 (-2))) (VNum (of_Z 1000000));
     point "2024-01-31" (VNum (of_decimal false 1555 (-1))) (VNum (of_Z 900000))]
    (VNum (of_decimal false 1555 (-1))).

(** [data: []]. *)
Definition empty_props : StockChartProps :=
  props_with [] (VNum (of_decimal false 1555 (-1))).

(** [data[0].price = 0], [current_price = 10]. *)
Definition zero_start_props : StockChartProps :=
  props_with [point "2024-01-01" (VNum zero) (VNum (of_Z 1))] (VNum ten).

(** [data[0].price = -0], the value of the JSON literal [-0]. *)
Definition negative_zero_start_props : StockChartProps :=
  props_with [point "2024-01-01" (VNum (S754_zero true)) (VNum (of_Z 1))]
             (VNum ten).

(** [data[0].price = NaN]. *)
Definition nan_start_props : StockChartProps :=
  props_with [point "2024-01-01" (VNum NaN) (VNum (of_Z 1))] (VNum ten).

(** A data point without a price, as the extractor lets it through. *)
Definition missing_price_props : StockChartProps :=
  props_with [VObj [(js "date", VStr (js "2024-01-01"))]] (VNum ten).

Definition fence (body : jsstring) : jsstring :=
  js "```json" ++ nl ++ body ++ nl ++ js "```".

Definition fenced (body : jsstring) : match_result :=
  {| matched := fence body; captured := body |}.

(** An assistant message with the payload of the first scenario in a
    fenced block, and the object the block parses to. *)
Definition aapl_json : jsstring :=
  jq "{'type': 'stock_chart', 'ticker': 'AAPL', 'company_name': 'Apple Inc.', 'period': '1mo', 'data': [{'date': '2024-01-01', 'price': 150.25, 'volume': 1000000}, {'date': '2024-01-31', 'price': 155.50, 'volume': 900000}], 'current_price': 155.50}".

Definition aapl_text : jsstring :=
  js "Here is the chart:" ++ nl ++ fence aapl_json ++ nl
  ++ js "Prices rose over the month.  ".

Definition aapl_object : value :=
  VObj [(js "type", VStr (js "stock_chart"));
        (js "ticker", ticker aapl_props);
        (js "company_name", company_name aapl_props);
        (js "period", period aapl_props);
        (js "data", data aapl_props);
        (js "current_price", current_price aapl_props)].

(** A fenced payload with [type], [ticker] and [data] only. *)
Definition bare_json : jsstring :=
  jq "{'type': 'stock_chart', 'ticker': 'AAPL', 'data': [{'date': '2024-01-01', 'price': 150.25, 'volume': 1000000}]}".

Definition bare_text : jsstring := fence bare_json.

Definition bare_series : list value :=
  [point "2024-01-01" (VNum (of_decimal false 15025 (-2))) (VNum (of_Z 1000000))].

Definition bare_object : value :=
  VObj [(js "type", VStr (js "stock_chart"));
        (js "ticker", VStr (js "AAPL"));
        (js "data", VArr bare_series)].




(** A fenced payload whose data is an empty array. *)
Definition empty_data_object : value :=
  VObj [(js "type", VStr (js "stock_chart"));
        (js "ticker", VStr (js "AAPL"));
        (js "data", VArr [])].

(** The zero start price scenario as an assistant message. *)
Definition zero_start_text : jsstring :=
  fence (jq "{'type': 'stock_chart', 'ticker': 'AAPL', 'company_name': 'Apple Inc.', 'period': '1mo', 'data': [{'date': '2024-01-01', 'price': 0, 'volume': 1}], 'current_price': 10}").

(** Two candidate fragments in one text. *)
Definition empty_data_json : jsstring :=
  jq "{'type': 'stock_chart', 'ticker': 'AAPL', 'data': []}".

Definition msft_json : jsstring :=
  jq "{'type': 'stock_chart', 'ticker': 'MSFT', 'data': []}".

Definition msft_object : value :=
  VObj [(js "type", VStr (js "stock_chart"));
        (js "ticker", VStr (js "MSFT"));
        (js "data", VArr [])].

Definition two_charts_text : jsstring :=
  fence empty_data_json ++ js " and " ++ msft_json.

Definition list_then_chart_text : jsstring :=
  fence (jq "[1, 2]") ++ js " then " ++ msft_json.

(** An ordinary reply, and a reply whose fenced block is cut short. *)
Definition plain_text : jsstring := js "AAPL closed higher today.".

Definition truncated_json : jsstring :=
  jq "{'type': 'stock_chart', 'ticker': 'AAPL', 'data': [{'date': ".

Definition truncated_text : jsstring := js "Chart: " ++ fence truncated_json.

(** * Further definitions: the language of the patterns, the console, the
    message hook and the format of the figures *)

(** ** The language of a pattern

    [matches r s]: the whole of [s] is one way to match [r], whatever the
    order in which the matcher tries the alternatives. *)
Inductive matches : pattern -> jsstring -> Prop :=
| matches_end : matches [] []
| matches_chr c r s :
    matches r s -> matches (Chr c :: r) (c :: s)
| matches_star g p r s1 s2 :
    forallb p s1 = true -> matches r s2 -> matches (Star g p :: r) (s1 ++ s2)
| matches_opt_one p c r s :
    p c = true -> matches r s -> matches (Opt p :: r) (c :: s)
| matches_opt_none p r s :
    matches r s -> matches (Opt p :: r) s
| matches_open r s : matches r s -> matches (Open :: r) s
| matches_close r s : matches r s -> matches (Close :: r) s.

(** The strings that the inline pattern matches as a whole: a brace, no
    brace up to the type key, the type, anything up to the data key, a
    bracketed part, anything up to a closing brace. *)
Definition inline_shape (m : jsstring) : Prop :=
  exists a ws1 t ws2 u v,
    m = js "{" ++ a ++ jq "'type':" ++ ws1 ++ jq "'stock_chart'" ++ t
        ++ jq "'data':" ++ ws2 ++ js "[" ++ u ++ js "]" ++ v ++ js "}"
    /\ forallb not_brace a = true
    /\ forallb is_space ws1 = true /\ forallb is_space ws2 = true.

(** ** The first fenced block of a text, in words *)

(** [occurs_before p s n]: the string [p] starts at one of the first [n]
    positions of [s]. *)
Definition occurs_before (p s : jsstring) (n : nat) : bool :=
  existsb (fun i => starts_with p (skipn i s)) (seq 0 n).

(** [chomp s]: [s] without one newline at its end, if it has one. *)
Fixpoint chomp (s : jsstring) : jsstring :=
  match s with
  | [] => []
  | c :: s' =>
      match s' with
      | [] => if newline c then [] else [c]
      | _ :: _ => c :: chomp s'
      end
  end.

(** The JSON source of a fenced block with content [inner]: the content
    without the white space after the opening fence and without one
    newline in front of the closing fence. *)
Definition block_source (inner : jsstring) : jsstring :=
  chomp (trim_start inner).

(** ** The console of [textRenderer], in words

    An attempt writes to the console when its source does not parse, or
    parses to [null] (reading [type] of it throws); a parsed object that
    fails the acceptance test is dropped silently. *)
Definition parse_error (source : jsstring) : option exn :=
  match JSON.parse source with
  | Throw e => Some e
  | Ok VNull | Ok VUndefined => Some TypeError
  | Ok _ => None
  end.

Definition report (msg : jsstring) (source : jsstring) : console :=
  match parse_error source with
  | Some e => [{| message := msg; error := e |}]
  | None => []
  end.

Definition fenced_log (text : jsstring) : console :=
  match String_match text jsonBlock with
  | Some m => report (js "Error parsing JSON from code block:") (captured m)
  | None => []
  end.

Definition inline_log (text : jsstring) : console :=
  match String_match text inlineJson with
  | Some m => report (js "Error parsing inline JSON:") (matched m)
  | None => []
  end.

(** ** The message hook: [makeSystemMessage] (src/unnamed/part_001, 127-136) *)

(** The content of a message: what the transport delivered, or the node
    that the hook put in its place. *)
Inductive message_content :=
| Delivered (v : value)
| Rendered (node : ReactNode).

(** A chat message: [role], [content] and its other properties, which
    the spread [{...message, content}] copies. *)
Record Message := {
  role : value;
  content : message_content;
  others : list (jsstring * value)
}.

(** [content !== message.content] for the node that [textRenderer]
    returned and the string it was given: a string is compared by its
    characters, an element is never equal to a string. *)
Definition differs (node : ReactNode) (text : jsstring) : bool :=
  match node with
  | Text t => negb (JsString.eqb t text)
  | ChartBlock _ _ => true
  end.

Definition makeSystemMessage (message : Message) : M Message :=
  match strict_eq (role message) (VStr (js "assistant")), content message with
  | true, Delivered (VStr text) =>
      node <- textRenderer text ;;
      if differs node text
      then ret {| role := role message;
                  content := Rendered node;
                  others := others message |}
      else ret message
  | _, _ => ret message
  end.

(** What the hook returns, in words: the message itself, unless it comes
    from the assistant, its content is a string and a payload is accepted
    in it; then the content becomes the chart block and the rest is
    kept. *)
Definition hooked (message : Message) : Message :=
  match strict_eq (role message) (VStr (js "assistant")), content message with
  | true, Delivered (VStr text) =>
      match first_accepted text with
      | (Some p, t) =>
          {| role := role message;
             content := Rendered (ChartBlock t p);
             others := others message |}
      | (None, _) => message
      end
  | _, _ => message
  end.

(** ** The figures of the renderer, in words *)

(** A numeral with a sign or none, at least one digit, a point and two
    digits. *)
Definition two_decimals (t : jsstring) : Prop :=
  exists sign whole d1 d2,
    t = sign ++ whole ++ js "." ++ [d1; d2]
    /\ (sign = [] \/ sign = js "-")
    /\ whole <> []
    /\ forallb JSON.is_digit (whole ++ [d1; d2]) = true.

(** A number that [toFixed] writes in fixed notation: a zero, or a finite
    number of magnitude below 10^21. *)
Definition fixed_range (x : number) : Prop :=
  match x with
  | S754_zero _ => True
  | S754_finite _ m e => at_least_1e21 m e = false
  | _ => False
  end.

(** The first price in the words of the amended claim: the price of the
    first point when it is a number other than NaN and zero, 0 when it is
    falsy (missing, null, false, the empty string, NaN, +0 or -0), and
    none when it is any other value, which has no [toFixed]. *)
Definition first_price (price : value) : option number :=
  match price with
  | VNum p => Some (match p with
                    | S754_nan | S754_zero _ => zero
                    | _ => p
                    end)
  | VUndefined | VNull | VBool false | VStr [] => Some zero
  | _ => None
  end.

(** The figures that a chart shows, apart from the labels and the series
    of the line. *)
Definition figures (r : outcome view)
  : option (jsstring * bool * jsstring * jsstring * jsstring * jsstring
            * jsstring * value) :=
  match r with
  | Ok (Chart c) =>
      Some (price_text c, is_positive c, sign_text c, change_text c,
            percent_text c, start_text c, current_text c, points c)
  | _ => None
  end.

(** ** More example inputs *)

Definition assistant_says (text : jsstring) : Message :=
  {| role := VStr (js "assistant");
     content := Delivered (VStr text);
     others := [(js "id", VStr (js "msg-1"))] |}.

(** A payload whose first price is a string. *)
Definition text_price_props : StockChartProps :=
  props_with [point "2024-01-01" (VStr (js "150.25")) (VNum (of_Z 1))] (VNum ten).

(** A falling price: 150.25 at the start, 140 now. *)
Definition falling_props : StockChartProps :=
  props_with [point "2024-01-01" (VNum (of_decimal false 15025 (-2))) (VNum (of_Z 1))]
             (VNum (of_Z 140)).

(** The first scenario with another last point: 99 on another day. *)
Definition other_last_props : StockChartProps :=
  props_with
    [point "2024-01-01" (VNum (of_decimal false 15025 (-2))) (VNum (of_Z 1000000));
     point "2024-02-15" (VNum (of_Z 99)) (VNum (of_Z 5))]
    (VNum (of_decimal false 1555 (-1))).

(** A well-formed payload whose company name holds three backticks, with
    the discriminator after the data. *)
Definition ticks_json : jsstring :=
  jq "{'ticker': 'AAPL', 'data': [], 'type': 'stock_chart', 'company_name': 'A```B'}".

Definition ticks_object : value :=
  VObj [(js "ticker", VStr (js "AAPL"));
        (js "data", VArr []);
        (js "type", VStr (js "stock_chart"));
        (js "company_name", VStr (js "A```B"))].

(** A fenced block that holds [null], then a fenced well-formed payload. *)
Definition after_null_text : jsstring :=
  fence (js "null") ++ nl ++ fence bare_json.

(** A first price of 1 and a current price of Infinity, the value of the
    JSON literal [1e309]. *)
Definition infinite_price_props : StockChartProps :=
  props_with [point "2024-01-01" (VNum (of_Z 1)) (VNum (of_Z 1))]
             (VNum Infinity).

Definition infinite_price_text : jsstring :=
  fence (jq "{'type': 'stock_chart', 'ticker': 'AAPL', 'company_name': 'Apple Inc.', 'period': '1mo', 'data': [{'date': '2024-01-01', 'price': 1, 'volume': 1}], 'current_price': 1e309}").

(** A current price given as a string. *)
Definition text_current_props : StockChartProps :=
  props_with [point "2024-01-01" (VNum (of_decimal false 15025 (-2))) (VNum (of_Z 1))]
             (VStr (js "155.50")).

(** * Properties *)

(** ** Numbers: the length of a non-empty array is not zero

    [of_Z] rounds to binary64.  Rounding a positive integer shifts its
    mantissa right by less than its number of binary digits, so the result
    is a finite number or an infinity, never a zero. *)

Lemma digits2_lower p : (2 ^ (Zpos (digits2_pos p) - 1) <= Zpos p)%Z.
Proof.
  induction p as [p IH|p IH|]; simpl digits2_pos.
  - rewrite Pos2Z.inj_succ.
    replace (Z.succ (Zpos (digits2_pos p)) - 1)%Z
      with (Z.succ (Zpos (digits2_pos p) - 1))%Z by lia.
    rewrite Z.pow_succ_r by lia. lia.
  - rewrite Pos2Z.inj_succ.
    replace (Z.succ (Zpos (digits2_pos p)) - 1)%Z
      with (Z.succ (Zpos (digits2_pos p) - 1))%Z by lia.
    rewrite Z.pow_succ_r by lia. lia.
  - simpl. lia.
Qed.

Lemma shr_1_m mrs :
  (0 <= shr_m mrs)%Z -> shr_m (shr_1 mrs) = (shr_m mrs / 2)%Z.
Proof.
  destruct mrs as [m r s]. simpl. intros Hm.
  destruct m as [|[p|p|]|p]; try lia; cbn [shr_m].
  - reflexivity.
  - apply Z.div_unique with 1%Z; lia.
  - apply Z.div_unique with 0%Z; lia.
  - reflexivity.
Qed.

Lemma shr_1_nonneg mrs : (0 <= shr_m mrs)%Z -> (0 <= shr_m (shr_1 mrs))%Z.
Proof.
  intros H. rewrite shr_1_m by assumption. apply Z.div_pos; lia.
Qed.

Lemma iter_shr_m n : forall mrs,
  (0 <= shr_m mrs)%Z ->
  shr_m (iter_pos shr_1 n mrs) = (shr_m mrs / 2 ^ Zpos n)%Z.
Proof.
  induction n as [n IH|n IH|]; intros mrs Hm; simpl iter_pos.
  - assert (H1 : (0 <= shr_m (shr_1 mrs))%Z) by now apply shr_1_nonneg.
    assert (H2 : (0 <= shr_m (iter_pos shr_1 n (shr_1 mrs)))%Z).
    { rewrite IH by assumption. apply Z.div_pos; lia. }
    rewrite IH by assumption. rewrite IH by assumption.
    rewrite shr_1_m by assumption.
    rewrite !Z.div_div by lia.
    f_equal. change (Zpos n~1) with (2 * Zpos n + 1)%Z.
    replace (2 * Zpos n + 1)%Z with (1 + Zpos n + Zpos n)%Z by lia.
    rewrite !Z.pow_add_r by lia. change (2 ^ 1)%Z with 2%Z. ring.
  - assert (H2 : (0 <= shr_m (iter_pos shr_1 n mrs))%Z).
    { rewrite IH by assumption. apply Z.div_pos; lia. }
    rewrite IH by assumption. rewrite IH by assumption.
    rewrite !Z.div_div by lia.
    f_equal. change (Zpos n~0) with (2 * Zpos n)%Z.
    replace (2 * Zpos n)%Z with (Zpos n + Zpos n)%Z by lia.
    rewrite !Z.pow_add_r by lia. ring.
  - rewrite shr_1_m by assumption. reflexivity.
Qed.

Lemma pow2_le_pos p k :
  (Zpos k <= Zpos (digits2_pos p) - 1)%Z -> (0 < Zpos p / 2 ^ Zpos k)%Z.
Proof.
  intros H. apply Z.div_str_pos. split; [apply Z.pow_pos_nonneg; lia|].
  apply Z.le_trans with (2 ^ (Zpos (digits2_pos p) - 1))%Z.
  - apply Z.pow_le_mono_r; lia.
  - apply digits2_lower.
Qed.

Lemma shr_fexp_pos p e l :
  (-1074 <= e)%Z ->
  (0 < shr_m (fst (shr_fexp prec emax (Zpos p) e l)))%Z
  /\ (-1074 <= snd (shr_fexp prec emax (Zpos p) e l))%Z.
Proof.
  intros He. unfold shr_fexp, shr, fexp, emin, prec, emax. simpl Zdigits2.
  destruct (Z.max (Zpos (digits2_pos p) + e - 53) (3 - 1024 - 53) - e)%Z
    as [|k|k] eqn:Hn; simpl fst; simpl snd.
  - split; [destruct l as [|[]]; simpl; lia | lia].
  - split; [|lia].
    rewrite iter_shr_m by (destruct l as [|[]]; simpl; lia).
    replace (shr_m (shr_record_of_loc (Zpos p) l)) with (Zpos p)
      by (destruct l as [|[]]; reflexivity).
    apply pow2_le_pos. lia.
  - split; [destruct l as [|[]]; simpl; lia | lia].
Qed.

Lemma round_nearest_even_ge m l : (m <= round_nearest_even m l)%Z.
Proof.
  destruct l as [|[]]; simpl; try lia. destruct (Z.even m); lia.
Qed.

Lemma binary_round_aux_nonzero s p e l :
  (-1074 <= e)%Z ->
  match binary_round_aux prec emax s (Zpos p) e l with
  | S754_finite _ _ _ | S754_infinity _ => True
  | _ => False
  end.
Proof.
  intros He. unfold binary_round_aux.
  destruct (shr_fexp_pos p l He) as [H1 H2].
  destruct (shr_fexp prec emax (Zpos p) e l) as [mrs' e']. simpl in H1, H2.
  pose proof (round_nearest_even_ge (shr_m mrs') (loc_of_shr_record mrs')) as H3.
  destruct (round_nearest_even (shr_m mrs') (loc_of_shr_record mrs'))
    as [|q|q] eqn:Hq; try lia.
  destruct (shr_fexp_pos q loc_Exact H2) as [H4 H5].
  destruct (shr_fexp prec emax (Zpos q) e' loc_Exact) as [mrs'' e''].
  simpl in H4. destruct (shr_m mrs''); try lia.
  destruct (e'' <=? emax - prec)%Z; exact I.
Qed.

Lemma of_Z_pos_nonzero p : Number.eqb (of_Z (Zpos p)) zero = false.
Proof.
  unfold of_Z, binary_normalize, binary_round.
  destruct (shl_align p 0 (fexp prec emax (Zpos (digits2_pos p) + 0)))
    as [mz ez] eqn:Ha.
  assert (He : (-1074 <= ez)%Z).
  { unfold shl_align in Ha.
    destruct (fexp prec emax (Zpos (digits2_pos p) + 0) - 0)%Z eqn:Hd;
      injection Ha as <- <-; try lia.
    unfold fexp, emin, prec, emax. lia. }
  pose proof (binary_round_aux_nonzero false mz loc_Exact He) as H.
  destruct (binary_round_aux prec emax false (Zpos mz) ez loc_Exact)
    as [| [] | |[]]; try contradiction; reflexivity.
Qed.

(** ** JSON.parse: the fuel never decides *)

Import JSON.

Lemma expect_length c s s' : expect c s = Some s' -> List.length s = S (List.length s').
Proof.
  destruct s as [|x s]; cbn; [discriminate|].
  destruct (N.eqb x c); [|discriminate]. now intros [= ->].
Qed.

Lemma skip_ws_length s : List.length (skip_ws s) <= List.length s.
Proof.
  induction s as [|c s IH]; cbn; [lia|]. destruct (is_ws c); cbn; lia.
Qed.

Lemma keyword_length w s s' : keyword w s = Some s' -> List.length s' <= List.length s.
Proof.
  unfold keyword. destruct (starts_with w s); [|discriminate].
  intros [= <-]. rewrite length_skipn. lia.
Qed.

Lemma parse_chars_length n : forall s acc str rest,
  List.length s <= n -> parse_chars s acc = Some (str, rest) ->
  List.length rest < List.length s.
Proof.
  induction n as [|n IH]; intros s acc str rest Hn H.
  - destruct s; [discriminate|cbn in Hn; lia].
  - destruct s as [|c s1]; [discriminate|]. cbn [parse_chars] in H.
    cbn [List.length] in *.
    destruct (c =? 34)%N; [injection H as _ <-; lia|].
    destruct (c =? 92)%N.
    + destruct s1 as [|e s2]; [discriminate|]. cbn [List.length] in *.
      destruct (e =? 117)%N.
      * destruct s2 as [|a [|b [|c' [|d s3]]]]; try discriminate.
        cbn [List.length] in *.
        destruct (hex_digit a), (hex_digit b), (hex_digit c'), (hex_digit d);
          try discriminate.
        apply IH in H; lia.
      * destruct (escape e); [|discriminate]. apply IH in H; lia.
    + destruct (c <? 32)%N; [discriminate|]. apply IH in H; lia.
Qed.

Lemma take_digits_length s : forall v l,
  List.length (snd (take_digits s v l)) <= List.length s.
Proof.
  induction s as [|c s IH]; intros v l; cbn; [lia|].
  destruct (is_digit c); cbn; [|lia].
  specialize (IH (v * 10 + (c - 48))%N (S l)). lia.
Qed.

(** Split the matches of a successful parse, keeping the length facts. *)
Ltac split_parse H :=
  repeat
    match type of H with
    | context [expect ?c ?s] =>
        let E := fresh "E" in
        destruct (expect c s) eqn:E; [apply expect_length in E|]
    | context [take_digits ?s ?v ?l] =>
        let Ht := fresh "Ht" in
        pose proof (take_digits_length s v l) as Ht;
        destruct (take_digits s v l) as [[? ?] ?]; cbn [snd] in Ht
    | context [match ?l with O => _ | S _ => _ end] =>
        destruct l; [discriminate|]
    end.

Lemma parse_exponent_length s e rest :
  parse_exponent s = Some (e, rest) -> List.length rest <= List.length s.
Proof.
  unfold parse_exponent. intros H.
  destruct s as [|c s1]; [injection H as _ <-; lia|].
  destruct ((c =? 101) || (c =? 69))%N; [|injection H as _ <-; lia].
  split_parse H; injection H as _ <-; cbn [List.length]; lia.
Qed.

Lemma parse_number_length s x rest :
  parse_number s = Some (x, rest) -> List.length rest <= List.length s.
Proof.
  unfold parse_number. intros H.
  split_parse H;
    match type of H with
    | context [parse_exponent ?s] =>
        let E := fresh "E" in
        destruct (parse_exponent s) as [[? ?]|] eqn:E; [|discriminate];
        apply parse_exponent_length in E
    end;
    injection H as _ <-; lia.
Qed.

Lemma parse_scalar_length s r :
  parse_scalar s = Some r -> List.length (snd r) <= List.length s.
Proof.
  unfold parse_scalar.
  destruct (expect 34%N s) as [s1|] eqn:E1.
  - apply expect_length in E1.
    destruct (parse_chars s1 []) as [[str s2]|] eqn:E2; [|discriminate].
    apply (parse_chars_length (n := List.length s1)) in E2; [|lia].
    intros [= <-]. cbn. lia.
  - destruct (keyword (js "true") s) as [s1|] eqn:K1.
    { apply keyword_length in K1. intros [= <-]. exact K1. }
    destruct (keyword (js "false") s) as [s1|] eqn:K2.
    { apply keyword_length in K2. intros [= <-]. exact K2. }
    destruct (keyword (js "null") s) as [s1|] eqn:K3.
    { apply keyword_length in K3. intros [= <-]. exact K3. }
    destruct (parse_number s) as [[x s1]|] eqn:E3; [|discriminate].
    apply parse_number_length in E3. intros [= <-]. exact E3.
Qed.

Lemma parse_fuel f :
  (forall s r, parse_value f s = Some r ->
     List.length (snd r) <= List.length s
     /\ forall f', 2 * List.length s <= f' -> parse_value f' s = Some r)
  /\ (forall s acc r, parse_members f s acc = Some r ->
        List.length (snd r) <= List.length s
        /\ forall f', 2 * List.length s + 1 <= f' ->
                      parse_members f' s acc = Some r)
  /\ (forall s acc r, parse_elements f s acc = Some r ->
        List.length (snd r) <= List.length s
        /\ forall f', 2 * List.length s + 1 <= f' ->
                      parse_elements f' s acc = Some r).
Proof.
  induction f as [|f [IHv [IHm IHe]]]; [repeat split; discriminate|].
  split; [|split].
  - intros s r H. cbn [parse_value] in H.
    destruct (expect 123%N s) as [s1|] eqn:E1.
    { pose proof (expect_length _ _ E1) as L1.
      pose proof (skip_ws_length s1) as L2.
      destruct (expect 125%N (skip_ws s1)) as [s2|] eqn:E2.
      - pose proof (expect_length _ _ E2) as L3. injection H as <-.
        split; [cbn; lia|]. intros [|f'] Hf; [lia|].
        cbn [parse_value]. now rewrite E1, E2.
      - destruct (IHm _ _ _ H) as [L3 Hm]. split; [lia|].
        intros [|f'] Hf; [lia|]. cbn [parse_value]. rewrite E1, E2.
        apply Hm. lia. }
    destruct (expect 91%N s) as [s1|] eqn:E2.
    { pose proof (expect_length _ _ E2) as L1.
      pose proof (skip_ws_length s1) as L2.
      destruct (expect 93%N (skip_ws s1)) as [s2|] eqn:E3.
      - pose proof (expect_length _ _ E3) as L3. injection H as <-.
        split; [cbn; lia|]. intros [|f'] Hf; [lia|].
        cbn [parse_value]. now rewrite E1, E2, E3.
      - destruct (IHe _ _ _ H) as [L3 He]. split; [lia|].
        intros [|f'] Hf; [lia|]. cbn [parse_value]. rewrite E1, E2, E3.
        apply He. lia. }
    split; [now apply parse_scalar_length|].
    intros [|f'] Hf.
    + destruct s; [discriminate|cbn in Hf; lia].
    + cbn [parse_value]. now rewrite E1, E2.
  - intros s acc r H. cbn [parse_members] in H.
    destruct (expect 34%N s) as [s1|] eqn:E1; [|discriminate].
    pose proof (expect_length _ _ E1) as L1.
    destruct (parse_chars s1 []) as [[k s2]|] eqn:E2; [|discriminate].
    pose proof (parse_chars_length (n := List.length s1) _ _ (le_n _) E2) as L2.
    pose proof (skip_ws_length s2) as L3.
    destruct (expect 58%N (skip_ws s2)) as [s3|] eqn:E3; [|discriminate].
    pose proof (expect_length _ _ E3) as L4.
    pose proof (skip_ws_length s3) as L5.
    destruct (parse_value f (skip_ws s3)) as [[v s4]|] eqn:E4; [|discriminate].
    destruct (IHv _ _ E4) as [L6 Hv]. cbn [snd] in L6.
    pose proof (skip_ws_length s4) as L7.
    destruct (expect 44%N (skip_ws s4)) as [s5|] eqn:E5.
    + pose proof (expect_length _ _ E5) as L8.
      pose proof (skip_ws_length s5) as L9.
      destruct (IHm _ _ _ H) as [L10 Hm]. split; [lia|].
      intros [|f'] Hf; [lia|]. cbn [parse_members].
      rewrite E1, E2, E3, (Hv f') by lia. rewrite E5. apply Hm. lia.
    + destruct (expect 125%N (skip_ws s4)) as [s5|] eqn:E6; [|discriminate].
      pose proof (expect_length _ _ E6) as L8. injection H as <-.
      split; [cbn; lia|].
      intros [|f'] Hf; [lia|]. cbn [parse_members].
      rewrite E1, E2, E3, (Hv f') by lia. now rewrite E5, E6.
  - intros s acc r H. cbn [parse_elements] in H.
    destruct (parse_value f s) as [[v s1]|] eqn:E1; [|discriminate].
    destruct (IHv _ _ E1) as [L1 Hv]. cbn [snd] in L1.
    pose proof (skip_ws_length s1) as L2.
    destruct (expect 44%N (skip_ws s1)) as [s2|] eqn:E2.
    + pose proof (expect_length _ _ E2) as L3.
      pose proof (skip_ws_length s2) as L4.
      destruct (IHe _ _ _ H) as [L5 He]. split; [lia|].
      intros [|f'] Hf; [lia|]. cbn [parse_elements].
      rewrite (Hv f') by lia. rewrite E2. apply He. lia.
    + destruct (expect 93%N (skip_ws s1)) as [s2|] eqn:E3; [|discriminate].
      pose proof (expect_length _ _ E3) as L3. injection H as <-.
      split; [cbn; lia|].
      intros [|f'] Hf; [lia|]. cbn [parse_elements].
      rewrite (Hv f') by lia. now rewrite E2, E3.
Qed.

(** Whatever fuel lets a text parse, [JSON.parse] gives the same value:
    its own fuel is never what makes it fail. *)
Lemma parse_value_fuel fuel text v rest :
  parse_value fuel (skip_ws text) = Some (v, rest) ->
  skip_ws rest = [] ->
  JSON.parse text = Ok v.
Proof.
  intros H Hr. unfold JSON.parse.
  destruct (parse_fuel fuel) as [Hv _]. destruct (Hv _ _ H) as [_ Hf].
  rewrite Hf, Hr; [reflexivity|].
  pose proof (skip_ws_length text). lia.
Qed.

(** ** The acceptance test of the source is [accepts] *)

Lemma get_prop_field v key :
  JsString.eqb key (js "length") = false ->
  get_prop v key = match v with
                   | VUndefined | VNull => Throw TypeError
                   | _ => Ok (field v key)
                   end.
Proof.
  intros Hk. destruct v; simpl; try reflexivity; now rewrite Hk.
Qed.

Lemma chart_condition_accepts v w :
  chart_condition v w = match v with
                 | VUndefined | VNull => (Throw TypeError, w)
                 | _ => (Ok (accepts v), w)
                 end.
Proof.
  unfold chart_condition, accepts, bind, lift, ret.
  rewrite !get_prop_field by reflexivity.
  destruct v; try reflexivity;
    (destruct (strict_eq _ _); [|reflexivity]);
    (destruct (truthy (field _ (js "data"))); reflexivity).
Qed.

(** One guarded attempt of the source never throws and decides as
    [judge] does. *)
Lemma chartFrom_judge text raw source msg w :
  exists w',
    try_catch (chartFrom text raw source)
              (fun e => console_error msg e ;;; ret None) w
    = (Ok (match judge text raw source with
           | Some (Some p, t) => Some (ChartBlock t p)
           | _ => None
           end), w').
Proof.
  unfold try_catch, chartFrom, judge.
  unfold bind at 1. unfold lift at 1.
  destruct (JSON.parse source) as [v|e]; [|eexists; reflexivity].
  unfold bind at 1. rewrite chart_condition_accepts.
  destruct v; try (eexists; reflexivity);
    (destruct (accepts _) eqn:Ha; [|eexists; reflexivity]);
    unfold bind, lift, ret; rewrite !get_prop_field by reflexivity;
    eexists; reflexivity.
Qed.

(** ** [textRenderer] against the design *)

Lemma judge_Some_payload text raw source r :
  judge text raw source = Some r -> exists p, fst r = Some p.
Proof.
  unfold judge. destruct (JSON.parse source); [|discriminate].
  destruct (accepts a); [|discriminate].
  intros [= <-]. eexists; reflexivity.
Qed.

Lemma textRenderer_first_accepted text w :
  exists w', textRenderer text w = (Ok (node_of (first_accepted text)), w').
Proof.
  unfold textRenderer, first_accepted, fenced_attempt, inline_attempt.
  unfold bind at 1. unfold try_catch at 1. unfold bind at 1.
  destruct (String_match text jsonBlock) as [m|].
  - destruct (chartFrom_judge text (matched m) (captured m)
                (js "Error parsing JSON from code block:") w) as [w1 ->].
    destruct (judge text (matched m) (captured m)) as [[[p|] t]|] eqn:J.
    + eexists; reflexivity.
    + apply judge_Some_payload in J. destruct J as [p J]. discriminate.
    + destruct (String_match text inlineJson) as [m2|].
      * destruct (chartFrom_judge text (matched m2) (matched m2)
                    (js "Error parsing inline JSON:") w1) as [w2 ->].
        destruct (judge text (matched m2) (matched m2)) as [[[p|] t]|] eqn:J2.
        -- eexists; reflexivity.
        -- apply judge_Some_payload in J2. destruct J2 as [p J2]. discriminate.
        -- eexists; reflexivity.
      * eexists; reflexivity.
  - unfold ret at 1.
    destruct (String_match text inlineJson) as [m2|].
    + destruct (chartFrom_judge text (matched m2) (matched m2)
                  (js "Error parsing inline JSON:") w) as [w2 ->].
      destruct (judge text (matched m2) (matched m2)) as [[[p|] t]|] eqn:J2.
      * eexists; reflexivity.
      * apply judge_Some_payload in J2. destruct J2 as [p J2]. discriminate.
      * eexists; reflexivity.
    + eexists; reflexivity.
Qed.

Lemma extract_first_accepted text : extract text = Ok (first_accepted text).
Proof.
  unfold extract.
  destruct (textRenderer_first_accepted text []) as [w' ->]. simpl.
  destruct (first_accepted text) as [[p|] t]; reflexivity.
Qed.

Lemma judge_None_iff text raw source :
  judge text raw source = None <->
  (exists e, JSON.parse source = Throw e)
  \/ (exists v, JSON.parse source = Ok v /\ accepts v = false).
Proof.
  unfold judge. destruct (JSON.parse source) as [v|e].
  - destruct (accepts v) eqn:Ha; split.
    + discriminate.
    + intros [[e H]|[v' [[= <-] H]]]; [discriminate|congruence].
    + intros _. right. eauto.
    + reflexivity.
  - split; [intros _; left; eauto | reflexivity].
Qed.

Lemma fenced_attempt_None_iff text :
  fenced_attempt text = None <-> attempt_fails text jsonBlock captured.
Proof.
  unfold fenced_attempt. split.
  - destruct (String_match text jsonBlock) as [m|] eqn:Hm.
    + intros H. apply judge_None_iff in H.
      destruct H as [[e H]|[v [H1 H2]]].
      * eapply parse_failure; eauto.
      * eapply test_failure; eauto.
    + intros _. now apply no_match.
  - intros [H|m e H H2|m v H H2 H3]; rewrite H; trivial;
      apply judge_None_iff; eauto.
Qed.

Lemma inline_attempt_None_iff text :
  inline_attempt text = None <-> attempt_fails text inlineJson matched.
Proof.
  unfold inline_attempt. split.
  - destruct (String_match text inlineJson) as [m|] eqn:Hm.
    + intros H. apply judge_None_iff in H.
      destruct H as [[e H]|[v [H1 H2]]].
      * eapply parse_failure; eauto.
      * eapply test_failure; eauto.
    + intros _. now apply no_match.
  - intros [H|m e H H2|m v H H2 H3]; rewrite H; trivial;
      apply judge_None_iff; eauto.
Qed.

(** ** What [extract] returns *)

Lemma accepted_payload_extract text v raw :
  accepted_payload text v raw ->
  extract text = Ok (Some (payload_of v), trim (remove_first raw text)).
Proof.
  intros H. rewrite extract_first_accepted. unfold first_accepted.
  destruct H as [m Hm Hp Ha ->|m Hf Hm Hp Ha ->].
  - unfold fenced_attempt, judge. now rewrite Hm, Hp, Ha.
  - apply fenced_attempt_None_iff in Hf. rewrite Hf.
    unfold inline_attempt, judge. now rewrite Hm, Hp, Ha.
Qed.

Lemma extract_payload_inv text p t :
  extract text = Ok (Some p, t) ->
  exists v raw,
    accepted_payload text v raw
    /\ p = payload_of v /\ t = trim (remove_first raw text).
Proof.
  rewrite extract_first_accepted. unfold first_accepted.
  destruct (fenced_attempt text) as [r|] eqn:Hf.
  - intros [= ->]. unfold fenced_attempt in Hf.
    destruct (String_match text jsonBlock) as [m|] eqn:Hm; [|discriminate].
    unfold judge in Hf.
    destruct (JSON.parse (captured m)) as [v|] eqn:Hp; [|discriminate].
    destruct (accepts v) eqn:Ha; [|discriminate].
    injection Hf as <- <-.
    exists v, (matched m). split; [|split; reflexivity].
    eapply from_fenced; eauto.
  - apply fenced_attempt_None_iff in Hf.
    destruct (inline_attempt text) as [r|] eqn:Hi; [|discriminate].
    intros [= ->]. unfold inline_attempt in Hi.
    destruct (String_match text inlineJson) as [m|] eqn:Hm; [|discriminate].
    unfold judge in Hi.
    destruct (JSON.parse (matched m)) as [v|] eqn:Hp; [|discriminate].
    destruct (accepts v) eqn:Ha; [|discriminate].
    injection Hi as <- <-.
    exists v, (matched m). split; [|split; reflexivity].
    eapply from_inline; eauto.
Qed.

Lemma extract_nothing text :
  attempt_fails text jsonBlock captured ->
  attempt_fails text inlineJson matched ->
  extract text = Ok (None, text).
Proof.
  intros Hf Hi. rewrite extract_first_accepted. unfold first_accepted.
  apply fenced_attempt_None_iff in Hf. apply inline_attempt_None_iff in Hi.
  now rewrite Hf, Hi.
Qed.

(** ** The two patterns on texts of a known shape *)


Lemma exec_lit p : forall r g s pos,
  exec (lit p ++ r) g (p ++ s) pos = exec r g s (pos + List.length p).
Proof.
  induction p as [|c p IH]; intros r g s pos; cbn [lit map app exec List.length].
  - now rewrite Nat.add_0_r.
  - rewrite N.eqb_refl. fold (lit p). rewrite IH. f_equal. lia.
Qed.

Lemma exec_first_char c r g c' s pos :
  c' <> c -> exec (Chr c :: r) g (c' :: s) pos = None.
Proof.
  intros H. cbn [exec]. destruct (N.eqb_spec c' c); [contradiction|reflexivity].
Qed.

Lemma search_hit r s pos f :
  exec r (pos, pos) s pos = Some f -> search r s pos = Some (pos, f).
Proof. intros H. destruct s; cbn [search]; now rewrite H. Qed.

Lemma search_no_first_char c r : forall s pos,
  Forall (fun c' => c' <> c) s -> search (Chr c :: r) s pos = None.
Proof.
  induction s as [|c' s IH]; intros pos H.
  - reflexivity.
  - inversion H as [|? ? Hc Hs]; subst. cbn [search].
    rewrite exec_first_char by assumption. now apply IH.
Qed.

Lemma search_skip c r pre : forall s pos,
  Forall (fun c' => c' <> c) pre ->
  search (Chr c :: r) (pre ++ s) pos
  = search (Chr c :: r) s (pos + List.length pre).
Proof.
  induction pre as [|c' pre IH]; intros s pos H; cbn [app List.length].
  - now rewrite Nat.add_0_r.
  - inversion H as [|? ? Hc Hs]; subst.
    cbn [search]. rewrite exec_first_char by assumption.
    rewrite IH by assumption. f_equal. lia.
Qed.

(** The lazy group walks over a body free of backticks and stops in front
    of the closing fence. *)
Lemma lazy_group_stops g post : forall body pos,
  Forall (fun c => c <> backtick) body ->
  star_lazy any (exec (Close :: Opt newline :: lit (js "```")) g)
            (body ++ nl ++ js "```" ++ post) pos
  = Some {| stop := pos + List.length body + 4;
            group := (fst g, pos + List.length body) |}.
Proof.
  induction body as [|c body IH]; intros pos H.
  - cbn. rewrite Nat.add_0_r. do 2 f_equal. lia.
  - inversion H as [|? ? Hc Hb]; subst.
    cbn [app star_lazy].
    assert (Hk : exec (Close :: Opt newline :: lit (js "```")) g
                   (c :: body ++ nl ++ js "```" ++ post) pos = None).
    { cbn [exec optional].
      assert (Hlit : forall s p g',
                 exec (lit (js "```")) g' (c :: s) p = None).
      { intros. change (lit (js "```")) with (Chr backtick :: lit (js "``")).
        now apply exec_first_char. }
      destruct (newline c); [|apply Hlit].
      rewrite Hlit.
      destruct body as [|c2 body].
      - reflexivity.
      - inversion Hb; subst.
        change (lit (js "```")) with (Chr backtick :: lit (js "``")).
        cbn [app]. now rewrite exec_first_char. }
    rewrite Hk. cbn [any]. rewrite IH by assumption.
    cbn [List.length]. do 2 f_equal; [lia | f_equal; lia].
Qed.

Lemma substring_middle (a b c : jsstring) from to :
  from = List.length a -> to = List.length a + List.length b ->
  substring (a ++ b ++ c) from to = b.
Proof.
  intros -> ->. unfold substring.
  rewrite skipn_app, skipn_all, Nat.sub_diag. cbn [app skipn].
  replace (List.length a + List.length b - List.length a)
    with (List.length b) by lia.
  rewrite firstn_app, firstn_all, Nat.sub_diag. cbn [firstn].
  apply app_nil_r.
Qed.

Lemma length_fence body : List.length (fence body) = List.length body + 12.
Proof.
  unfold fence. rewrite !length_app.
  change (List.length (js "```json")) with 7.
  change (List.length nl) with 1. change (List.length (js "```")) with 3. lia.
Qed.

Lemma newline_is_space c : is_space c = false -> newline c = false.
Proof.
  unfold newline. destruct (N.eqb_spec c 10) as [->|]; [discriminate|reflexivity].
Qed.

Lemma star_greedy_stop p k c s pos :
  p c = false -> star_greedy p k (c :: s) pos = k (c :: s) pos.
Proof. intros H. cbn [star_greedy]. now rewrite H. Qed.

Lemma star_greedy_take p k c s pos r :
  p c = true -> star_greedy p k s (S pos) = Some r ->
  star_greedy p k (c :: s) pos = Some r.
Proof. intros H1 H2. cbn [star_greedy]. now rewrite H1, H2. Qed.

Lemma optional_skip p k c s pos :
  p c = false -> optional p k (c :: s) pos = k (c :: s) pos.
Proof. intros H. cbn [optional]. now rewrite H. Qed.

(** After the opening fence: the white space, the group and the closing
    fence. *)
Lemma exec_after_fence g c body post pos :
  is_space c = false ->
  Forall (fun x => x <> backtick) (c :: body) ->
  exec (Star true is_space :: Opt newline :: Open :: Star false any
          :: Close :: Opt newline :: lit (js "```"))
       g (nl ++ (c :: body) ++ nl ++ js "```" ++ post) pos
  = Some {| stop := S pos + List.length (c :: body) + 4;
            group := (S pos, S pos + List.length (c :: body)) |}.
Proof.
  intros Hc Hbody.
  change (exec (Star true is_space :: ?r) g ?s pos)
    with (star_greedy is_space (exec r g) s pos).
  change (nl ++ ?s) with (10%N :: s).
  apply star_greedy_take; [reflexivity|].
  change ((c :: body) ++ ?s) with (c :: body ++ s).
  rewrite star_greedy_stop by assumption.
  change (exec (Opt newline :: ?r) g ?s ?p)
    with (optional newline (exec r g) s p).
  rewrite optional_skip by now apply newline_is_space.
  change (exec (Open :: Star false any :: ?r) g ?s ?p)
    with (star_lazy any (exec r (p, snd g)) s p).
  change (c :: body ++ ?s) with ((c :: body) ++ s).
  now rewrite lazy_group_stops.
Qed.

(** A fenced block whose body starts with a character that is not white
    space and holds no backtick, after prose without a backtick: the
    pattern matches the block and captures the body. *)
Lemma jsonBlock_match pre c body post :
  Forall (fun x => x <> backtick) pre ->
  is_space c = false ->
  Forall (fun x => x <> backtick) (c :: body) ->
  String_match (pre ++ fence (c :: body) ++ post) jsonBlock
  = Some (fenced (c :: body)).
Proof.
  intros Hpre Hc Hbody. unfold String_match.
  change jsonBlock with
    (Chr backtick
       :: lit (js "``json")
       ++ Star true is_space :: Opt newline :: Open :: Star false any
       :: Close :: Opt newline :: lit (js "```")).
  rewrite search_skip by assumption.
  change (Chr backtick :: lit (js "``json") ++ ?r)
    with (lit (js "```json") ++ r).
  unfold fence. rewrite <- !app_assoc.
  erewrite search_hit
    by (rewrite exec_lit; now apply exec_after_fence).
  cbn [stop group fst snd]. unfold fenced. f_equal. f_equal.
  - replace (js "```json" ++ nl ++ (c :: body) ++ nl ++ js "```" ++ post)
      with (fence (c :: body) ++ post)
      by (unfold fence; now rewrite <- !app_assoc).
    apply substring_middle; [lia|].
    rewrite length_fence. change (List.length (js "```json")) with 7. lia.
  - replace (pre ++ js "```json" ++ nl ++ (c :: body) ++ nl ++ js "```" ++ post)
      with ((pre ++ js "```json" ++ nl) ++ (c :: body) ++ nl ++ js "```" ++ post)
      by (now rewrite <- !app_assoc).
    apply substring_middle; rewrite !length_app;
      change (List.length (js "```json")) with 7;
      change (List.length nl) with 1; lia.
Qed.

Lemma free_of_Forall c s : free_of c s = true -> Forall (fun x => x <> c) s.
Proof.
  unfold free_of. rewrite forallb_forall, Forall_forall.
  intros H x Hx. specialize (H x Hx).
  destruct (N.eqb_spec x c); [discriminate|assumption].
Qed.

Lemma starts_with_app p s : starts_with p (p ++ s) = true.
Proof.
  induction p as [|c p IH]; cbn [starts_with app]; [reflexivity|].
  now rewrite N.eqb_refl.
Qed.

Lemma remove_first_head p s :
  remove_first p (p ++ s) = s.
Proof.
  destruct p as [|c p].
  - destruct s; reflexivity.
  - cbn [app remove_first]. change (c :: p ++ s) with ((c :: p) ++ s).
    rewrite starts_with_app. rewrite skipn_app, skipn_all, Nat.sub_diag.
    reflexivity.
Qed.

Lemma remove_first_skip c p pre : forall s,
  Forall (fun x => x <> c) pre ->
  remove_first (c :: p) (pre ++ s) = pre ++ remove_first (c :: p) s.
Proof.
  induction pre as [|x pre IH]; intros s H; [reflexivity|].
  inversion H as [|? ? Hx Hpre]; subst.
  cbn [app remove_first starts_with].
  destruct (N.eqb_spec c x) as [->|_]; [contradiction|].
  cbn [andb]. f_equal. fold (remove_first (c :: p)). now apply IH.
Qed.

Lemma remove_fence pre body post :
  Forall (fun x => x <> backtick) pre ->
  remove_first (fence body) (pre ++ fence body ++ post) = pre ++ post.
Proof.
  intros H.
  assert (Hf : fence body = backtick :: (js "``json" ++ nl ++ body ++ nl ++ js "```"))
    by reflexivity.
  rewrite Hf at 1. rewrite remove_first_skip by assumption.
  rewrite <- Hf. now rewrite remove_first_head.
Qed.

(** A well-formed fenced payload inside prose. *)
Lemma fenced_payload_in_prose pre c body post v tk items :
  free_of backtick pre = true ->
  is_space c = false ->
  free_of backtick (c :: body) = true ->
  JSON.parse (c :: body) = Ok v ->
  field v (js "type") = VStr (js "stock_chart") ->
  field v (js "ticker") = VStr tk -> tk <> [] ->
  field v (js "data") = VArr items ->
  extract (pre ++ fence (c :: body) ++ post)
  = Ok (Some (payload_of v), trim (pre ++ post)).
Proof.
  intros Hpre Hc Hbody Hp Ht Hk Hne Hd.
  apply free_of_Forall in Hpre, Hbody.
  rewrite <- (remove_fence (c :: body) post Hpre).
  apply accepted_payload_extract.
  apply (@from_fenced _ _ _ (fenced (c :: body)));
    [now apply jsonBlock_match | exact Hp | | reflexivity].
  unfold accepts. rewrite Ht, Hk, Hd. destruct tk; [contradiction|reflexivity].
Qed.

(** A text without a backtick and without an opening brace holds no
    candidate fragment. *)
Lemma plain_text_no_match text :
  free_of backtick text = true -> free_of 123%N text = true ->
  String_match text jsonBlock = None /\ String_match text inlineJson = None.
Proof.
  intros H1 H2. apply free_of_Forall in H1, H2. unfold String_match. split.
  - change jsonBlock with
      (Chr backtick
         :: lit (js "``json")
         ++ Star true is_space :: Opt newline :: Open :: Star false any
         :: Close :: Opt newline :: lit (js "```")).
    now rewrite search_no_first_char.
  - change inlineJson with
      (Chr 123%N
         :: Star true not_brace :: lit (jq "'type':") ++ [Star true is_space]
         ++ lit (jq "'stock_chart'") ++ [Star false any]
         ++ lit (jq "'data':") ++ [Star true is_space]
         ++ lit (js "[") ++ [Star false any]
         ++ lit (js "]") ++ [Star false any]
         ++ lit (js "}")).
    now rewrite search_no_first_char.
Qed.

(** ** The renderer *)

Lemma effect_free_ret {A} (a : A) : effect_free (ret a).
Proof. exists (Ok a). reflexivity. Qed.

Lemma effect_free_throw {A} e : effect_free (@throw A e).
Proof. exists (Throw e). reflexivity. Qed.

Lemma effect_free_lift {A} (o : outcome A) : effect_free (lift o).
Proof. exists o. reflexivity. Qed.

Lemma effect_free_bind {A B} (m : M A) (k : A -> M B) :
  effect_free m -> (forall a, effect_free (k a)) -> effect_free (bind m k).
Proof.
  intros [o Hm] Hk. destruct o as [a|e].
  - destruct (Hk a) as [o' Ho']. exists o'. intros w.
    unfold bind. rewrite Hm. apply Ho'.
  - exists (Throw e). intros w. unfold bind. now rewrite Hm.
Qed.

Lemma effect_free_toFixed2 E v : effect_free (toFixed2 E v).
Proof.
  destruct v; simpl; (apply effect_free_ret || apply effect_free_throw).
Qed.

Lemma effect_free_arith E op a b : effect_free (arith E op a b).
Proof.
  unfold arith.
  repeat (apply effect_free_bind; [apply effect_free_lift|intros ?]).
  apply effect_free_ret.
Qed.

Lemma StockChart_effect_free E props : effect_free (StockChart E props).
Proof.
  unfold StockChart.
  apply effect_free_bind.
  { destruct (truthy (data props));
      [apply effect_free_lift | apply effect_free_ret]. }
  intros len.
  destruct (negb (truthy (data props)) || strict_eq len (VNum zero)).
  { apply effect_free_ret. }
  repeat first
    [ apply effect_free_ret
    | apply effect_free_bind;
      [ first [ apply effect_free_lift | apply effect_free_arith
              | apply effect_free_toFixed2 ]
      | intros ? ] ].
Qed.

Lemma length_prop items :
  get_prop (VArr items) (js "length")
  = Ok (VNum (of_Z (Z.of_nat (List.length items)))).
Proof. reflexivity. Qed.

Lemma nonempty_length_nonzero (x : value) items :
  strict_eq (VNum (of_Z (Z.of_nat (List.length (x :: items))))) (VNum zero)
  = false.
Proof. cbn [List.length Z.of_nat strict_eq]. apply of_Z_pos_nonzero. Qed.

Lemma get_prop_opt_total v key : exists pv, get_prop_opt v key = Ok pv.
Proof.
  destruct v; simpl; try (eexists; reflexivity);
    destruct (JsString.eqb key (js "length")); eexists; reflexivity.
Qed.

(** Past the guard on [data]: reduce [StockChart] on a non-empty array up
    to the computation of [firstPrice]. *)
Ltac past_guard Hd Hp :=
  unfold StockChart; rewrite Hd; cbn [truthy negb orb];
  unfold bind at 1; unfold lift at 1; rewrite length_prop;
  rewrite nonempty_length_nonzero;
  unfold bind at 1; unfold lift at 1; cbn [get_index nth];
  unfold bind at 1; unfold lift at 1; rewrite Hp.

Lemma StockChart_numbers E props x items price fp cp w :
  data props = VArr (x :: items) ->
  get_prop_opt x (js "price") = Ok price ->
  js_or price (VNum zero) = VNum fp ->
  current_price props = VNum cp ->
  StockChart E props w
  = (Ok (Chart
           {| heading := ticker props;
              badge := period props;
              subtitle := company_name props;
              price_text := Number_toFixed2 E cp;
              is_positive := ge (sub cp fp) zero;
              sign_text := if ge (sub cp fp) zero then js "+" else [];
              change_text := Number_toFixed2 E (sub cp fp);
              percent_text :=
                Number_toFixed2 E (mul (div (sub cp fp) fp) (of_Z 100));
              series := data props;
              start_text := Number_toFixed2 E fp;
              current_text := Number_toFixed2 E cp;
              points := VNum (of_Z (Z.of_nat (List.length (x :: items)))) |}),
     w).
Proof.
  intros Hd Hp Hf Hc. past_guard Hd Hp. rewrite Hf, Hc. reflexivity.
Qed.

Lemma StockChart_needs_number E props x items w :
  data props = VArr (x :: items) ->
  (forall cp, current_price props <> VNum cp) ->
  exists e, StockChart E props w = (Throw e, w).
Proof.
  intros Hd Hc.
  destruct (get_prop_opt_total x (js "price")) as [price Hp].
  past_guard Hd Hp.
  unfold arith, bind, lift, ret.
  destruct (ToNumber E (current_price props)) as [c|e] eqn:Hn;
    [|eexists; reflexivity].
  destruct (ToNumber E (js_or price (VNum zero))) as [f|e];
    [|eexists; reflexivity].
  cbn [ToNumber toFixed2].
  destruct (current_price props) eqn:Hcp;
    try (eexists; reflexivity).
  now destruct (Hc x0).
Qed.

Lemma StockChart_empty E props w :
  data props = VArr [] ->
  StockChart E props w = (Ok (NoData (ticker props)), w).
Proof. intros Hd. unfold StockChart. rewrite Hd. reflexivity. Qed.

(** * Further properties *)

(** ** The matcher against the language of a pattern *)

Section QuantifierFacts.
Variable p : code_unit -> bool.
Variable k : jsstring -> nat -> option found.

Lemma star_greedy_inv : forall s pos f,
  star_greedy p k s pos = Some f ->
  exists j, j <= List.length s /\ forallb p (firstn j s) = true
            /\ k (skipn j s) (pos + j) = Some f.
Proof.
  induction s as [|c s IH]; intros pos f H; cbn [star_greedy] in H.
  - exists 0. rewrite Nat.add_0_r. auto.
  - destruct (p c) eqn:Hc.
    + destruct (star_greedy p k s (S pos)) as [r|] eqn:Hr.
      * injection H as <-. destruct (IH _ _ Hr) as [j [Hj [Hp Hk]]].
        exists (S j). cbn [List.length firstn skipn forallb].
        rewrite Hc, Hp. replace (pos + S j) with (S pos + j) by lia.
        repeat split; trivial. lia.
      * exists 0. rewrite Nat.add_0_r. cbn. repeat split; trivial. lia.
    + exists 0. rewrite Nat.add_0_r. cbn. repeat split; trivial. lia.
Qed.

Lemma star_lazy_inv : forall s pos f,
  star_lazy p k s pos = Some f ->
  exists j, j <= List.length s /\ forallb p (firstn j s) = true
            /\ k (skipn j s) (pos + j) = Some f
            /\ forall i, i < j -> k (skipn i s) (pos + i) = None.
Proof.
  induction s as [|c s IH]; intros pos f H; cbn [star_lazy] in H.
  - destruct (k [] pos) eqn:Hk; [|discriminate]. injection H as <-.
    exists 0. rewrite Nat.add_0_r. repeat split; trivial. intros; lia.
  - destruct (k (c :: s) pos) as [r|] eqn:Hk.
    + injection H as <-. exists 0. rewrite Nat.add_0_r. cbn.
      repeat split; trivial; [lia|intros; lia].
    + destruct (p c) eqn:Hc; [|discriminate].
      destruct (IH _ _ H) as [j [Hj [Hp [Hkj Hmin]]]].
      exists (S j). cbn [List.length firstn skipn forallb]. rewrite Hc, Hp.
      replace (pos + S j) with (S pos + j) by lia.
      repeat split; trivial; [lia|].
      intros [|i] Hi; [now rewrite Nat.add_0_r|].
      cbn [skipn]. replace (pos + S i) with (S pos + i) by lia.
      apply Hmin. lia.
Qed.

Lemma optional_inv s pos f :
  optional p k s pos = Some f ->
  k s pos = Some f
  \/ exists c s', s = c :: s' /\ p c = true /\ k s' (S pos) = Some f.
Proof.
  destruct s as [|c s']; cbn [optional]; [auto|].
  destruct (p c) eqn:Hc; [|auto].
  destruct (k s' (S pos)) as [r|] eqn:Hk; [|auto].
  intros [= <-]. right. eauto.
Qed.

(** Backtracking loses nothing: if the rest of the pattern matches after
    some repetition, the quantifier finds a match. *)
Lemma star_greedy_finds : forall s1 t pos,
  forallb p s1 = true -> k t (pos + List.length s1) <> None ->
  star_greedy p k (s1 ++ t) pos <> None.
Proof.
  induction s1 as [|c s1 IH]; intros t pos Hp Hk.
  - cbn [app List.length] in *. rewrite Nat.add_0_r in Hk.
    destruct t as [|c t]; cbn [star_greedy]; [assumption|].
    destruct (p c); [|assumption].
    destruct (star_greedy p k t (S pos)); [discriminate|assumption].
  - cbn [forallb] in Hp. apply andb_prop in Hp. destruct Hp as [Hc Hp].
    cbn [app star_greedy]. rewrite Hc.
    assert (H : star_greedy p k (s1 ++ t) (S pos) <> None).
    { apply IH; trivial. cbn [List.length] in Hk.
      now replace (S pos + List.length s1) with (pos + S (List.length s1)) by lia. }
    destruct (star_greedy p k (s1 ++ t) (S pos)); [discriminate|contradiction].
Qed.

Lemma star_lazy_finds : forall s1 t pos,
  forallb p s1 = true -> k t (pos + List.length s1) <> None ->
  star_lazy p k (s1 ++ t) pos <> None.
Proof.
  induction s1 as [|c s1 IH]; intros t pos Hp Hk.
  - cbn [app List.length] in *. rewrite Nat.add_0_r in Hk.
    destruct t as [|c t]; cbn [star_lazy];
      destruct (k _ pos); (discriminate || contradiction).
  - cbn [forallb] in Hp. apply andb_prop in Hp. destruct Hp as [Hc Hp].
    cbn [app star_lazy]. destruct (k (c :: s1 ++ t) pos); [discriminate|].
    rewrite Hc. apply IH; trivial. cbn [List.length] in Hk.
    now replace (S pos + List.length s1) with (pos + S (List.length s1)) by lia.
Qed.

End QuantifierFacts.

(** Soundness: a reported match is in the language of the pattern. *)
Lemma exec_sound r : forall g s pos f,
  exec r g s pos = Some f ->
  exists n, stop f = pos + n /\ n <= List.length s /\ matches r (firstn n s).
Proof.
  induction r as [|a r IH]; intros g s pos f H.
  - injection H as <-. exists 0. cbn. rewrite Nat.add_0_r.
    repeat split; [lia|constructor].
  - destruct a as [c|[] p|p| |]; cbn [exec] in H.
    + destruct s as [|c' s]; [discriminate|].
      destruct (N.eqb_spec c' c) as [->|]; [|discriminate].
      destruct (IH _ _ _ _ H) as [n [Hs [Hn Hm]]].
      exists (S n). cbn [firstn List.length].
      repeat split; [lia|lia|now constructor].
    + destruct (star_greedy_inv _ _ _ _ H) as [j [Hj [Hp Hk]]].
      destruct (IH _ _ _ _ Hk) as [n [Hs [Hn Hm]]].
      rewrite length_skipn in Hn.
      exists (j + n). repeat split; [lia|lia|].
      replace (firstn (j + n) s) with (firstn j s ++ firstn n (skipn j s)).
      * now constructor.
      * rewrite <- (firstn_skipn j s) at 3. rewrite firstn_app.
        rewrite firstn_firstn, length_firstn.
        replace (Nat.min (j + n) j) with j by lia.
        replace (j + n - Nat.min j (List.length s)) with n by lia.
        reflexivity.
    + destruct (star_lazy_inv _ _ _ _ H) as [j [Hj [Hp [Hk _]]]].
      destruct (IH _ _ _ _ Hk) as [n [Hs [Hn Hm]]].
      rewrite length_skipn in Hn.
      exists (j + n). repeat split; [lia|lia|].
      replace (firstn (j + n) s) with (firstn j s ++ firstn n (skipn j s)).
      * now constructor.
      * rewrite <- (firstn_skipn j s) at 3. rewrite firstn_app.
        rewrite firstn_firstn, length_firstn.
        replace (Nat.min (j + n) j) with j by lia.
        replace (j + n - Nat.min j (List.length s)) with n by lia.
        reflexivity.
    + destruct (optional_inv _ _ _ _ H) as [Hk|[c [s' [-> [Hc Hk]]]]].
      * destruct (IH _ _ _ _ Hk) as [n [Hs [Hn Hm]]].
        exists n. repeat split; trivial. now apply matches_opt_none.
      * destruct (IH _ _ _ _ Hk) as [n [Hs [Hn Hm]]].
        exists (S n). cbn [firstn List.length].
        repeat split; [lia|lia|now apply matches_opt_one].
    + destruct (IH _ _ _ _ H) as [n [Hs [Hn Hm]]].
      exists n. repeat split; trivial. now constructor.
    + destruct (IH _ _ _ _ H) as [n [Hs [Hn Hm]]].
      exists n. repeat split; trivial. now constructor.
Qed.

(** Completeness: when some prefix of the input is in the language of the
    pattern, the matcher reports a match. *)
Lemma exec_complete r m :
  matches r m -> forall g rest pos, exec r g (m ++ rest) pos <> None.
Proof.
  induction 1 as [|c r s _ IH|gr p r s1 s2 Hp _ IH|p c r s Hc _ IH
                  |p r s _ IH|r s _ IH|r s _ IH]; intros g rest pos.
  - discriminate.
  - cbn [app exec]. rewrite N.eqb_refl. apply IH.
  - rewrite <- app_assoc. destruct gr; cbn [exec].
    + apply star_greedy_finds; [assumption|apply IH].
    + apply star_lazy_finds; [assumption|apply IH].
  - cbn [app exec optional]. rewrite Hc.
    specialize (IH g rest (S pos)).
    destruct (exec r g (s ++ rest) (S pos)); [discriminate|contradiction].
  - cbn [exec]. specialize (IH g rest pos).
    destruct (s ++ rest) as [|c t] eqn:E; cbn [optional]; [assumption|].
    destruct (p c); [|assumption].
    destruct (exec r g t (S pos)); [discriminate|assumption].
  - cbn [exec]. apply IH.
  - cbn [exec]. apply IH.
Qed.

Lemma search_inv r : forall s pos i f,
  search r s pos = Some (i, f) ->
  exists d, i = pos + d /\ d <= List.length s
            /\ exec r (i, i) (skipn d s) i = Some f
            /\ forall d', d' < d ->
                 exec r (pos + d', pos + d') (skipn d' s) (pos + d') = None.
Proof.
  induction s as [|c s IH]; intros pos i f H; cbn [search] in H.
  - destruct (exec r (pos, pos) [] pos) as [f'|] eqn:E; [|discriminate].
    injection H as <- <-. exists 0. rewrite Nat.add_0_r. cbn.
    repeat split; trivial. intros; lia.
  - destruct (exec r (pos, pos) (c :: s) pos) as [f'|] eqn:E.
    + injection H as <- <-. exists 0. rewrite Nat.add_0_r. cbn.
      repeat split; trivial; [lia|intros; lia].
    + destruct (IH _ _ _ H) as [d [-> [Hd [He Hmin]]]].
      exists (S d). cbn [skipn List.length].
      replace (pos + S d) with (S pos + d) by lia.
      repeat split; trivial; [lia|].
      intros [|d'] Hd'; [now rewrite Nat.add_0_r|].
      cbn [skipn]. replace (pos + S d') with (S pos + d') by lia.
      apply Hmin. lia.
Qed.

Lemma search_none r : forall s pos,
  search r s pos = None ->
  forall d, d <= List.length s ->
    exec r (pos + d, pos + d) (skipn d s) (pos + d) = None.
Proof.
  induction s as [|c s IH]; intros pos H d Hd; cbn [search] in H.
  - destruct (exec r (pos, pos) [] pos) eqn:E; [discriminate|].
    cbn in Hd. replace d with 0 by lia. now rewrite Nat.add_0_r.
  - destruct (exec r (pos, pos) (c :: s) pos) eqn:E; [discriminate|].
    destruct d as [|d]; [now rewrite Nat.add_0_r|].
    cbn [skipn]. replace (pos + S d) with (S pos + d) by lia.
    apply IH; trivial. cbn in Hd. lia.
Qed.

Lemma skipn_occurrence (a m b : jsstring) :
  skipn (List.length a) (a ++ m ++ b) = m ++ b.
Proof. now rewrite skipn_app, skipn_all, Nat.sub_diag. Qed.

(** [text.match(r)] returns the leftmost substring in the language of
    the pattern. *)
Lemma String_match_leftmost text r m :
  String_match text r = Some m ->
  exists pre post,
    text = pre ++ matched m ++ post
    /\ matches r (matched m)
    /\ forall a m' b, text = a ++ m' ++ b -> matches r m' ->
                      List.length pre <= List.length a.
Proof.
  unfold String_match. intros H.
  destruct (search r text 0) as [[i f]|] eqn:Hs; [|discriminate].
  injection H as <-. cbn [matched].
  destruct (search_inv _ _ _ Hs) as [d [-> [Hd [He Hmin]]]].
  cbn [Nat.add] in *.
  destruct (exec_sound _ _ _ _ He) as [n [Hst [Hn Hm]]].
  rewrite length_skipn in Hn.
  assert (Hsub : substring text d (stop f) = firstn n (skipn d text)).
  { unfold substring. rewrite Hst. now replace (d + n - d) with n by lia. }
  rewrite Hsub.
  exists (firstn d text), (skipn n (skipn d text)).
  split; [now rewrite !firstn_skipn|]. split; [assumption|].
  intros a m' b Ht Hm'. rewrite length_firstn.
  destruct (Nat.lt_ge_cases (List.length a) d) as [Hlt|Hge]; [|lia].
  exfalso. specialize (Hmin _ Hlt). rewrite Ht, skipn_occurrence in Hmin.
  revert Hmin. now apply exec_complete.
Qed.

Lemma String_match_none text r :
  String_match text r = None <->
  forall a m b, text = a ++ m ++ b -> ~ matches r m.
Proof.
  unfold String_match. split.
  - destruct (search r text 0) as [[i f]|] eqn:Hs; [discriminate|].
    intros _ a m b Ht Hm.
    assert (Ha : List.length a <= List.length text)
      by (rewrite Ht, length_app; lia).
    pose proof (search_none _ _ _ Hs Ha) as He. cbn [Nat.add] in He.
    rewrite Ht, skipn_occurrence in He. revert He. now apply exec_complete.
  - intros H. destruct (search r text 0) as [[i f]|] eqn:Hs; [|reflexivity].
    exfalso.
    assert (Hm : String_match text r
                 = Some {| matched := substring text i (stop f);
                           captured := substring text (fst (group f))
                                                 (snd (group f)) |})
      by (unfold String_match; now rewrite Hs).
    destruct (String_match_leftmost _ _ Hm) as [pre [post [Ht [Hl _]]]].
    exact (H _ _ _ Ht Hl).
Qed.

(** ** [text.replace(match[0], '')] removes the match where it was found *)

Lemma starts_with_prefix p : forall s,
  starts_with p s = true -> exists b, s = p ++ b.
Proof.
  induction p as [|c p IH]; intros s H; [now exists s|].
  destruct s as [|x s]; [discriminate|]. cbn [starts_with] in H.
  apply andb_prop in H. destruct H as [Hc Hp].
  apply N.eqb_eq in Hc. subst x.
  destruct (IH _ Hp) as [b ->]. now exists b.
Qed.

Lemma remove_first_at p post : forall pre,
  (forall a b, pre ++ p ++ post = a ++ p ++ b ->
               List.length pre <= List.length a) ->
  remove_first p (pre ++ p ++ post) = pre ++ post.
Proof.
  induction pre as [|c pre IH]; intros H.
  - cbn [app]. apply remove_first_head.
  - cbn [app]. 
    destruct (starts_with p (c :: pre ++ p ++ post)) eqn:Hs.
    + apply starts_with_prefix in Hs. destruct Hs as [b Hb].
      specialize (H [] b Hb). cbn in H. lia.
    + assert (Hr : remove_first p (c :: pre ++ p ++ post)
                   = c :: remove_first p (pre ++ p ++ post)).
      { destruct p; cbn [remove_first]; now rewrite Hs. }
      rewrite Hr, IH; [reflexivity|].
      intros a b Hab. specialize (H (c :: a) b). cbn in H.
      rewrite Hab in H. specialize (H eq_refl). lia.
Qed.

(** The string that [match] returns occurs first in the text where the
    pattern matched, so removing its first occurrence removes the match
    itself. *)
Lemma replace_removes_match text r m :
  String_match text r = Some m ->
  exists pre post,
    text = pre ++ matched m ++ post
    /\ remove_first (matched m) text = pre ++ post.
Proof.
  intros H. destruct (String_match_leftmost _ _ H) as [pre [post [Ht [Hm Hl]]]].
  exists pre, post. split; [assumption|].
  rewrite Ht at 1. apply remove_first_at.
  intros a b Hab. apply (Hl a (matched m) b); [congruence|assumption].
Qed.

(** ** What the fenced pattern matches and captures *)

Lemma matches_lit p : forall r s,
  matches r s -> matches (lit p ++ r) (p ++ s).
Proof.
  induction p as [|c p IH]; intros r s H; [assumption|].
  cbn [lit map app]. constructor. now apply IH.
Qed.

Lemma matches_lit_inv p : forall r s,
  matches (lit p ++ r) s -> exists s', s = p ++ s' /\ matches r s'.
Proof.
  induction p as [|c p IH]; intros r s H; [now exists s|].
  cbn [lit map app] in H. inversion H as [|? ? s0 H0| | | | |]; subst.
  destruct (IH _ _ H0) as [s' [-> Hm]]. now exists s'.
Qed.

Lemma matches_lit_only p s : matches (lit p) s -> s = p.
Proof.
  intros H. rewrite <- (app_nil_r (lit p)) in H.
  apply matches_lit_inv in H. destruct H as [s' [-> H]].
  inversion H. apply app_nil_r.
Qed.

Lemma matches_lit_self p : matches (lit p) p.
Proof.
  pose proof (matches_lit p matches_end) as H.
  now rewrite !app_nil_r in H.
Qed.

Lemma exec_lit_inv p : forall r g s pos f,
  exec (lit p ++ r) g s pos = Some f ->
  exists s', s = p ++ s' /\ exec r g s' (pos + List.length p) = Some f.
Proof.
  induction p as [|c p IH]; intros r g s pos f H.
  - exists s. now rewrite Nat.add_0_r.
  - cbn [lit map app exec] in H. destruct s as [|x s]; [discriminate|].
    destruct (N.eqb_spec x c) as [->|]; [|discriminate].
    destruct (IH _ _ _ _ _ H) as [s' [-> He]]. exists s'.
    split; [reflexivity|]. cbn [List.length].
    now replace (pos + S (List.length p)) with (S pos + List.length p) by lia.
Qed.

Lemma jsonBlock_language_inv mm :
  matches jsonBlock mm -> exists g, mm = js "```json" ++ g ++ js "```".
Proof.
  intros Hl. unfold jsonBlock in Hl.
  apply matches_lit_inv in Hl. destruct Hl as [s1 [-> Hl]].
  cbn [app] in Hl.
  assert (Hend : forall s, matches (Open :: Star false any :: Close
                                      :: Opt newline :: lit (js "```")) s ->
                           exists g, s = g ++ js "```").
  { intros s H. inversion H as [| | | | |? ? H3|]; subst.
    inversion H3 as [| |? ? ? g s4 _ H4| | | |]; subst.
    inversion H4 as [| | | | | |? ? H5]; subst.
    inversion H5 as [| | |? c ? s6 _ H6|? ? ? H6| |]; subst.
    - apply (matches_lit_only (js "```")) in H6. subst.
      exists (g ++ [c]). now rewrite <- app_assoc.
    - apply (matches_lit_only (js "```")) in H6. subst. now exists g. }
  inversion Hl as [| |? ? ? ws s2 _ H2| | | |]; subst.
  inversion H2 as [| | |? c ? s3 _ H3|? ? ? H3| |]; subst.
  - destruct (Hend _ H3) as [g ->]. exists (ws ++ c :: g).
    now rewrite <- !app_assoc.
  - destruct (Hend _ H3) as [g ->]. exists (ws ++ g).
    now rewrite <- !app_assoc.
Qed.

Lemma jsonBlock_language b :
  matches jsonBlock (js "```json" ++ b ++ js "```").
Proof.
  unfold jsonBlock. apply matches_lit. cbn [app].
  change (b ++ js "```") with ([] ++ b ++ js "```").
  apply matches_star; [reflexivity|].
  apply matches_opt_none. apply matches_open.
  apply matches_star; [apply forallb_forall; reflexivity|].
  apply matches_close. apply matches_opt_none. apply matches_lit_self.
Qed.

(** The fenced pattern matches exactly the texts that hold an opening
    fence and, after it, three backticks. *)
Lemma jsonBlock_matches_iff text :
  String_match text jsonBlock <> None <->
  exists a b c, text = a ++ js "```json" ++ b ++ js "```" ++ c.
Proof.
  split.
  - destruct (String_match text jsonBlock) as [m|] eqn:Hm; [|contradiction].
    intros _.
    destruct (String_match_leftmost _ _ Hm) as [pre [post [Ht [Hl _]]]].
    destruct (jsonBlock_language_inv Hl) as [g Hg].
    exists pre, g, post. rewrite Ht, Hg. now rewrite <- !app_assoc.
  - intros [a [b [c ->]]] Hn.
    pose proof (proj1 (String_match_none _ _) Hn) as Hno.
    apply (Hno a (js "```json" ++ b ++ js "```") c).
    + now rewrite <- !app_assoc.
    + apply jsonBlock_language.
Qed.

Lemma String_match_inv text r m :
  String_match text r = Some m ->
  exists i f,
    i <= List.length text
    /\ exec r (i, i) (skipn i text) i = Some f
    /\ matched m = substring text i (stop f)
    /\ captured m = substring text (fst (group f)) (snd (group f)).
Proof.
  unfold String_match. intros H.
  destruct (search r text 0) as [[i f]|] eqn:Hs; [|discriminate].
  injection H as <-. destruct (search_inv _ _ _ Hs) as [d [-> [Hd [He _]]]].
  exists d, f. cbn [Nat.add matched captured] in *. auto.
Qed.

Lemma exec_last_lit p g s pos f :
  exec (lit p) g s pos = Some f ->
  exists rest, s = p ++ rest
               /\ f = {| stop := pos + List.length p; group := g |}.
Proof.
  intros H. rewrite <- (app_nil_r (lit p)) in H.
  apply exec_lit_inv in H. destruct H as [rest [-> H]].
  exists rest. split; [reflexivity|]. now injection H as <-.
Qed.

Lemma newline_only c : newline c = true -> [c] = nl.
Proof. unfold newline. intros H. apply N.eqb_eq in H. now subst. Qed.

(** The closing part of the fenced pattern matches wherever three
    backticks start. *)
Lemma closing_fence_found g rest pos :
  exec (Close :: Opt newline :: lit (js "```")) g (js "```" ++ rest) pos
  <> None.
Proof.
  apply exec_complete. apply matches_close, matches_opt_none, matches_lit_self.
Qed.

(** What the fenced pattern matches and captures: the opening fence, white
    space, the captured source, at most one newline and the closing fence;
    no three backticks start inside the captured source, which ends in
    front of the first closing fence. *)
Lemma jsonBlock_capture text m :
  String_match text jsonBlock = Some m ->
  exists pre ws n1 n2 post,
    text = pre ++ matched m ++ post
    /\ matched m
       = js "```json" ++ ws ++ n1 ++ captured m ++ n2 ++ js "```"
    /\ forallb is_space ws = true
    /\ (n1 = [] \/ n1 = nl) /\ (n2 = [] \/ n2 = nl)
    /\ forall i, i < List.length (captured m) ->
         starts_with (js "```")
                     (skipn i (captured m ++ n2 ++ js "```" ++ post))
         = false.
Proof.
  intros H. destruct (String_match_inv _ _ H) as [i [f [Hi [He [Hm Hc]]]]].
  unfold jsonBlock in He.
  apply exec_lit_inv in He. destruct He as [s1 [E0 He]].
  cbn [app] in He.
  change (exec (Star true is_space :: ?r) ?g ?s ?p)
    with (star_greedy is_space (exec r g) s p) in He.
  apply star_greedy_inv in He. destruct He as [j1 [Hj1 [Hws He]]].
  change (exec (Opt newline :: ?r) ?g ?s ?p)
    with (optional newline (exec r g) s p) in He.
  assert (Hopen : exists n1 s3,
             skipn j1 s1 = n1 ++ s3 /\ (n1 = [] \/ n1 = nl)
             /\ exec (Open :: Star false any :: Close :: Opt newline
                        :: lit (js "```"))
                     (i, i) s3
                     (i + List.length (js "```json") + j1 + List.length n1)
                = Some f).
  { apply optional_inv in He. destruct He as [He|[c [s' [E [Hn He]]]]].
    - exists [], (skipn j1 s1). split; [reflexivity|]. split; [now left|].
      cbn [List.length]. now rewrite Nat.add_0_r.
    - exists [c], s'. split; [exact E|].
      split; [right; now apply newline_only|].
      cbn [List.length].
      now replace (i + List.length (js "```json") + j1 + 1)
        with (S (i + List.length (js "```json") + j1)) by lia. }
  destruct Hopen as [n1 [s3 [E1 [Hn1 He3]]]].
  remember (i + List.length (js "```json") + j1 + List.length n1) as p3.
  change (exec (Open :: Star false any :: ?r) (i, i) s3 p3)
    with (star_lazy any (exec r (p3, i)) s3 p3) in He3.
  apply star_lazy_inv in He3. destruct He3 as [j2 [Hj2 [_ [He4 Hmin]]]].
  change (exec (Close :: Opt newline :: ?r) (p3, i) ?s ?p)
    with (optional newline (exec r (p3, p)) s p) in He4.
  assert (Hclose : exists n2 rest,
             skipn j2 s3 = n2 ++ js "```" ++ rest /\ (n2 = [] \/ n2 = nl)
             /\ f = {| stop := p3 + j2 + List.length n2 + 3;
                       group := (p3, p3 + j2) |}).
  { apply optional_inv in He4. destruct He4 as [He4|[c [s' [E [Hn He4]]]]].
    - apply exec_last_lit in He4. destruct He4 as [rest [E ->]].
      exists [], rest. split; [exact E|]. split; [now left|].
      f_equal. change (List.length (js "```")) with 3. cbn [List.length]. lia.
    - apply exec_last_lit in He4. destruct He4 as [rest [E' ->]].
      exists [c], rest. split; [now rewrite E, E'|].
      split; [right; now apply newline_only|].
      f_equal. change (List.length (js "```")) with 3. cbn [List.length]. lia. }
  destruct Hclose as [n2 [rest [E2 [Hn2 ->]]]].
  cbn [stop group fst snd] in Hm, Hc.
  (* the text, cut at the positions found *)
  set (pre := firstn i text).
  set (ws := firstn j1 s1).
  set (g := firstn j2 s3).
  assert (Ls1 : s1 = ws ++ n1 ++ s3)
    by (unfold ws; now rewrite <- E1, firstn_skipn).
  assert (Ls3 : s3 = g ++ n2 ++ js "```" ++ rest)
    by (unfold g; now rewrite <- E2, firstn_skipn).
  assert (Lt : text = pre ++ js "```json" ++ ws ++ n1 ++ g ++ n2
                          ++ js "```" ++ rest).
  { unfold pre. rewrite <- Ls3, <- Ls1, <- E0. now rewrite firstn_skipn. }
  assert (Lpre : List.length pre = i) by (unfold pre; rewrite length_firstn; lia).
  assert (Lws : List.length ws = j1) by (unfold ws; rewrite length_firstn; lia).
  assert (Lg : List.length g = j2) by (unfold g; rewrite length_firstn; lia).
  assert (Hcap : captured m = g).
  { rewrite Hc, Lt.
    replace (pre ++ js "```json" ++ ws ++ n1 ++ g ++ n2 ++ js "```" ++ rest)
      with ((pre ++ js "```json" ++ ws ++ n1) ++ g ++ n2 ++ js "```" ++ rest)
      by (now rewrite <- !app_assoc).
    apply substring_middle; rewrite !length_app; lia. }
  assert (Hmat : matched m
                 = js "```json" ++ ws ++ n1 ++ g ++ n2 ++ js "```").
  { rewrite Hm, Lt.
    replace (pre ++ js "```json" ++ ws ++ n1 ++ g ++ n2 ++ js "```" ++ rest)
      with (pre ++ (js "```json" ++ ws ++ n1 ++ g ++ n2 ++ js "```") ++ rest)
      by (now rewrite <- !app_assoc).
    apply substring_middle; [lia|]. rewrite !length_app.
    change (List.length (js "```")) with 3. lia. }
  exists pre, ws, n1, n2, rest. rewrite Hcap, Hmat.
  split; [now rewrite Lt, <- !app_assoc|].
  split; [reflexivity|]. split; [assumption|].
  split; [assumption|]. split; [assumption|].
  intros k Hk. rewrite <- Ls3.
  destruct (starts_with (js "```") (skipn k s3)) eqn:Hs; [|reflexivity].
  exfalso. apply starts_with_prefix in Hs. destruct Hs as [b Hb].
  assert (Hlt : k < j2) by lia.
  specialize (Hmin _ Hlt). rewrite Hb in Hmin.
  revert Hmin. apply closing_fence_found.
Qed.

(** ** What the inline pattern matches *)

Lemma matches_star_inv g p r s :
  matches (Star g p :: r) s ->
  exists s1 s2, s = s1 ++ s2 /\ forallb p s1 = true /\ matches r s2.
Proof.
  intros H. inversion H as [| |? ? ? s1 s2 Hp Hr| | | |]; subst.
  now exists s1, s2.
Qed.

Lemma inlineJson_language m : matches inlineJson m <-> inline_shape m.
Proof.
  unfold inlineJson, inline_shape. split.
  - intros H.
    apply matches_lit_inv in H. destruct H as [s1 [-> H]].
    apply matches_star_inv in H. destruct H as [a [s2 [-> [Ha H]]]].
    apply matches_lit_inv in H. destruct H as [s3 [-> H]].
    apply matches_star_inv in H. destruct H as [ws1 [s4 [-> [Hw1 H]]]].
    apply matches_lit_inv in H. destruct H as [s5 [-> H]].
    apply matches_star_inv in H. destruct H as [t [s6 [-> [_ H]]]].
    apply matches_lit_inv in H. destruct H as [s7 [-> H]].
    apply matches_star_inv in H. destruct H as [ws2 [s8 [-> [Hw2 H]]]].
    apply matches_lit_inv in H. destruct H as [s9 [-> H]].
    apply matches_star_inv in H. destruct H as [u [s10 [-> [_ H]]]].
    apply matches_lit_inv in H. destruct H as [s11 [-> H]].
    apply matches_star_inv in H. destruct H as [v [s12 [-> [_ H]]]].
    apply matches_lit_only in H. subst s12.
    exists a, ws1, t, ws2, u, v. auto.
  - intros [a [ws1 [t [ws2 [u [v [-> [Ha [Hw1 Hw2]]]]]]]]].
    assert (Hany : forall s, forallb any s = true)
      by (intros s; apply forallb_forall; reflexivity).
    apply matches_lit. apply matches_star; [assumption|].
    apply matches_lit. apply matches_star; [assumption|].
    apply matches_lit. apply matches_star; [apply Hany|].
    apply matches_lit. apply matches_star; [assumption|].
    apply matches_lit. apply matches_star; [apply Hany|].
    apply matches_lit. apply matches_star; [apply Hany|].
    apply matches_lit_self.
Qed.

(** ** [trim] *)

Lemma trim_start_split s :
  exists a, s = a ++ trim_start s /\ forallb is_space a = true.
Proof.
  induction s as [|c s [a [Hs Ha]]]; [now exists []|].
  cbn [trim_start]. destruct (is_space c) eqn:Hc.
  - exists (c :: a). cbn [app forallb]. rewrite Hc, Ha. now rewrite Hs at 1.
  - now exists [].
Qed.

Lemma trim_start_head s c s' :
  trim_start s = c :: s' -> is_space c = false.
Proof.
  induction s as [|x s IH]; [discriminate|]. cbn [trim_start].
  destruct (is_space x) eqn:Hx; [assumption|]. now intros [= <- _].
Qed.

Lemma trim_end_split s :
  exists b, s = trim_end s ++ b /\ forallb is_space b = true.
Proof.
  unfold trim_end. destruct (trim_start_split (rev s)) as [a [Hs Ha]].
  exists (rev a). split.
  - rewrite <- (rev_involutive s), Hs at 1. now rewrite rev_app_distr.
  - rewrite forallb_forall in *. intros x Hx. apply Ha. now apply in_rev.
Qed.

Lemma trim_end_last s t c :
  trim_end s = t ++ [c] -> is_space c = false.
Proof.
  unfold trim_end. intros H.
  apply (f_equal (@rev _)) in H. rewrite rev_involutive, rev_app_distr in H.
  cbn in H. now apply trim_start_head in H.
Qed.

Lemma trim_end_keeps_head c s :
  is_space c = false -> exists t, trim_end (c :: s) = c :: t.
Proof.
  intros Hc. destruct (trim_end_split (c :: s)) as [b [Hs Hb]].
  destruct (trim_end (c :: s)) as [|x t] eqn:E.
  - cbn in Hs. subst b. cbn in Hb. now rewrite Hc in Hb.
  - injection Hs as <- _. now exists t.
Qed.

(** [trim] cuts white space, and only white space, from both ends. *)
Lemma trim_spec s :
  (exists a b, s = a ++ trim s ++ b
               /\ forallb is_space a = true /\ forallb is_space b = true)
  /\ (forall c t, trim s = c :: t -> is_space c = false)
  /\ (forall t c, trim s = t ++ [c] -> is_space c = false).
Proof.
  unfold trim. split; [|split].
  - destruct (trim_start_split s) as [a [Hs Ha]].
    destruct (trim_end_split (trim_start s)) as [b [Ht Hb]].
    exists a, b. split; [|now split]. now rewrite <- Ht.
  - intros c t H. destruct (trim_start s) as [|x u] eqn:E; [discriminate|].
    pose proof (trim_start_head _ E) as Hx.
    destruct (@trim_end_keeps_head x u Hx) as [t' Ht]. rewrite Ht in H.
    now injection H as <- _.
  - intros t c. apply trim_end_last.
Qed.

Lemma all_space_trim s : forallb is_space s = true -> trim s = [].
Proof.
  intros H. unfold trim.
  assert (Hs : trim_start s = []).
  { induction s as [|c s IH]; [reflexivity|]. cbn [forallb] in H.
    apply andb_prop in H. destruct H as [Hc Hs]. cbn [trim_start].
    rewrite Hc. now apply IH. }
  now rewrite Hs.
Qed.

(** ** The prose of a chart block *)

Lemma accepted_payload_match text v raw :
  accepted_payload text v raw ->
  exists r m, String_match text r = Some m /\ raw = matched m
              /\ (r = jsonBlock \/ r = inlineJson).
Proof. intros [m Hm _ _ ->|m _ Hm _ _ ->]; eauto 6. Qed.

Lemma extract_prose text p t :
  extract text = Ok (Some p, t) ->
  exists pre raw post a b,
    text = pre ++ raw ++ post
    /\ pre ++ post = a ++ t ++ b
    /\ forallb is_space a = true /\ forallb is_space b = true
    /\ (forall c u, t = c :: u -> is_space c = false)
    /\ (forall u c, t = u ++ [c] -> is_space c = false).
Proof.
  intros H. destruct (extract_payload_inv _ H) as [v [raw [Ha [_ ->]]]].
  destruct (accepted_payload_match Ha) as [r [m [Hm [-> _]]]].
  destruct (replace_removes_match _ _ Hm) as [pre [post [Ht Hr]]].
  rewrite Hr.
  destruct (trim_spec (pre ++ post)) as [[a [b [Hs [Ha' Hb]]]] [Hh Hl]].
  exists pre, (matched m), post, a, b. auto 10.
Qed.

(** ** The console of [textRenderer] *)

Lemma chartFrom_guarded text raw source msg w :
  try_catch (chartFrom text raw source)
            (fun e => console_error msg e ;;; ret None) w
  = (Ok (match judge text raw source with
         | Some (Some p, t) => Some (ChartBlock t p)
         | _ => None
         end), w ++ report msg source).
Proof.
  unfold try_catch, chartFrom, judge, report, parse_error.
  unfold bind at 1. unfold lift at 1.
  destruct (JSON.parse source) as [v|e];
    [|cbn; reflexivity].
  unfold bind at 1. rewrite chart_condition_accepts.
  destruct v; try reflexivity;
    (destruct (accepts _) eqn:Ha; [|now rewrite app_nil_r]);
    unfold bind, lift, ret; rewrite !get_prop_field by reflexivity;
    now rewrite app_nil_r.
Qed.

Lemma judge_payload text raw source :
  match judge text raw source with
  | Some (None, _) => False
  | _ => True
  end.
Proof.
  unfold judge. destruct (JSON.parse source); [|exact I].
  destruct (accepts a); exact I.
Qed.

(** [textRenderer] returns the node of the design and appends to the
    console the report of the fenced attempt, then, when that attempt
    yields nothing, the report of the inline attempt; the outer handler
    never runs. *)
Lemma textRenderer_console text w :
  textRenderer text w
  = (Ok (node_of (first_accepted text)),
     w ++ fenced_log text
       ++ match fenced_attempt text with
          | Some _ => []
          | None => inline_log text
          end).
Proof.
  unfold textRenderer, first_accepted, fenced_attempt, inline_attempt,
    fenced_log, inline_log.
  unfold bind at 1. unfold try_catch at 1. unfold bind at 1.
  destruct (String_match text jsonBlock) as [m|].
  - rewrite chartFrom_guarded.
    pose proof (judge_payload text (matched m) (captured m)) as Hj.
    destruct (judge text (matched m) (captured m)) as [[[p|] t]|];
      [|contradiction|].
    + cbn. now rewrite app_nil_r.
    + destruct (String_match text inlineJson) as [m2|].
      * rewrite chartFrom_guarded.
        pose proof (judge_payload text (matched m2) (matched m2)) as Hj2.
        destruct (judge text (matched m2) (matched m2)) as [[[p|] t]|];
          [|contradiction|]; cbn; now rewrite <- app_assoc.
      * cbn. now rewrite !app_nil_r.
  - unfold ret at 1.
    destruct (String_match text inlineJson) as [m2|].
    + rewrite chartFrom_guarded.
      pose proof (judge_payload text (matched m2) (matched m2)) as Hj2.
      destruct (judge text (matched m2) (matched m2)) as [[[p|] t]|];
        [|contradiction|]; reflexivity.
    + cbn. now rewrite app_nil_r.
Qed.

Lemma first_accepted_absent text :
  fst (first_accepted text) = None -> first_accepted text = (None, text).
Proof.
  unfold first_accepted, fenced_attempt, inline_attempt.
  destruct (String_match text jsonBlock) as [m|].
  - pose proof (judge_payload text (matched m) (captured m)) as Hj.
    destruct (judge text (matched m) (captured m)) as [[[p|] t]|];
      [discriminate|contradiction|].
    destruct (String_match text inlineJson) as [m2|]; [|reflexivity].
    pose proof (judge_payload text (matched m2) (matched m2)) as Hj2.
    destruct (judge text (matched m2) (matched m2)) as [[[p|] t]|];
      [discriminate|contradiction|reflexivity].
  - destruct (String_match text inlineJson) as [m2|]; [|reflexivity].
    pose proof (judge_payload text (matched m2) (matched m2)) as Hj2.
    destruct (judge text (matched m2) (matched m2)) as [[[p|] t]|];
      [discriminate|contradiction|reflexivity].
Qed.

Lemma jsstring_eqb_refl s : JsString.eqb s s = true.
Proof.
  induction s as [|c s IH]; [reflexivity|]. cbn. now rewrite N.eqb_refl.
Qed.

(** ** The message hook *)

Lemma makeSystemMessage_hooked message w :
  exists w', makeSystemMessage message w = (Ok (hooked message), w').
Proof.
  unfold makeSystemMessage, hooked.
  destruct (strict_eq (role message) (VStr (js "assistant")));
    [|eexists; reflexivity].
  destruct (content message) as [[]|]; try (eexists; reflexivity).
  unfold bind. rewrite textRenderer_console.
  destruct (first_accepted s) as [[p|] t] eqn:Hf.
  - eexists; reflexivity.
  - pose proof (first_accepted_absent s) as Ha. rewrite Hf in Ha.
    specialize (Ha eq_refl). injection Ha as ->.
    cbn [node_of differs]. rewrite jsstring_eqb_refl. eexists; reflexivity.
Qed.

(** ** The payload handed to the renderer *)

Lemma js_or_truthy a b : truthy b = true -> truthy (js_or a b) = true.
Proof. intros H. unfold js_or. now destruct (truthy a) eqn:Ha. Qed.

Lemma extracted_payload_truthy text p t :
  extract text = Ok (Some p, t) ->
  truthy (ticker p) = true /\ truthy (data p) = true
  /\ truthy (company_name p) = true /\ truthy (period p) = true.
Proof.
  intros H. destruct (extract_payload_inv _ H) as [v [raw [Ha [-> _]]]].
  assert (Hacc : accepts v = true) by (destruct Ha; assumption).
  unfold accepts in Hacc. apply andb_prop in Hacc. destruct Hacc as [Hacc Hk].
  apply andb_prop in Hacc. destruct Hacc as [_ Hd].
  cbn [payload_of ticker data company_name period].
  repeat split; trivial; now apply js_or_truthy.
Qed.

(** ** A chart needs an object *)

Lemma parse_members_object f : forall s acc v rest,
  parse_members f s acc = Some (v, rest) -> exists fields, v = VObj fields.
Proof.
  induction f as [|f IH]; intros s acc v rest H; [discriminate|].
  cbn [parse_members] in H.
  destruct (expect 34%N s) as [s1|]; [|discriminate].
  destruct (parse_chars s1 []) as [[k s2]|]; [|discriminate].
  destruct (expect 58%N (skip_ws s2)) as [s3|]; [|discriminate].
  destruct (parse_value f (skip_ws s3)) as [[v' s4]|]; [|discriminate].
  destruct (expect 44%N (skip_ws s4)).
  - eapply IH; eauto.
  - destruct (expect 125%N (skip_ws s4)); [|discriminate].
    injection H as <- _. eauto.
Qed.

Lemma parse_elements_array f : forall s acc v rest,
  parse_elements f s acc = Some (v, rest) -> exists items, v = VArr items.
Proof.
  induction f as [|f IH]; intros s acc v rest H; [discriminate|].
  cbn [parse_elements] in H.
  destruct (parse_value f s) as [[v' s1]|]; [|discriminate].
  destruct (expect 44%N (skip_ws s1)).
  - eapply IH; eauto.
  - destruct (expect 93%N (skip_ws s1)); [|discriminate].
    injection H as <- _. eauto.
Qed.

Lemma parse_scalar_not_object s fields rest :
  parse_scalar s <> Some (VObj fields, rest).
Proof.
  unfold parse_scalar.
  destruct (expect 34%N s) as [s1|].
  - destruct (parse_chars s1 []) as [[? ?]|]; discriminate.
  - destruct (keyword (js "true") s); [discriminate|].
    destruct (keyword (js "false") s); [discriminate|].
    destruct (keyword (js "null") s); [discriminate|].
    destruct (parse_number s) as [[? ?]|]; discriminate.
Qed.

Lemma parse_value_object f s fields rest :
  parse_value f s = Some (VObj fields, rest) -> exists s', s = 123%N :: s'.
Proof.
  destruct f as [|f]; [discriminate|]. cbn [parse_value].
  destruct (expect 123%N s) as [s1|] eqn:E1.
  - intros _. destruct s as [|c s]; [discriminate|]. cbn in E1.
    destruct (N.eqb_spec c 123); [subst; eauto|discriminate].
  - destruct (expect 91%N s) as [s1|].
    + destruct (expect 93%N (skip_ws s1)); [discriminate|].
      intros H. apply parse_elements_array in H. destruct H; discriminate.
    + intros H. now apply parse_scalar_not_object in H.
Qed.

Lemma skip_ws_suffix s : exists a, s = a ++ skip_ws s.
Proof.
  induction s as [|c s [a IH]]; [now exists []|]. cbn [skip_ws].
  destruct (is_ws c); [|now exists []].
  exists (c :: a). cbn. now rewrite <- IH.
Qed.

Lemma parsed_object_has_brace source fields :
  JSON.parse source = Ok (VObj fields) -> In 123%N source.
Proof.
  unfold JSON.parse.
  destruct (parse_value _ (skip_ws source)) as [[v rest]|] eqn:E; [|discriminate].
  destruct (skip_ws rest); [|discriminate]. intros [= ->].
  apply parse_value_object in E. destruct E as [s' E].
  destruct (skip_ws_suffix source) as [a Ha]. rewrite Ha, E.
  apply in_or_app. right. now left.
Qed.

Lemma accepts_object v : accepts v = true -> exists fields, v = VObj fields.
Proof. destruct v; try discriminate. eauto. Qed.

Lemma free_of_In c s : free_of c s = true -> ~ In c s.
Proof.
  intros H Hin. apply free_of_Forall in H. rewrite Forall_forall in H.
  now apply (H c Hin).
Qed.

Lemma substring_In (c : code_unit) (a m b : jsstring) :
  In c m -> In c (a ++ m ++ b).
Proof. intros H. apply in_or_app. right. apply in_or_app. now left. Qed.

Lemma firstn_In (c : code_unit) n (s : jsstring) : In c (firstn n s) -> In c s.
Proof. intros H. rewrite <- (firstn_skipn n s). apply in_or_app. now left. Qed.

Lemma skipn_In (c : code_unit) n (s : jsstring) : In c (skipn n s) -> In c s.
Proof. intros H. rewrite <- (firstn_skipn n s). apply in_or_app. now right. Qed.

Lemma match_parts_In text r m c :
  String_match text r = Some m ->
  (In c (matched m) -> In c text) /\ (In c (captured m) -> In c text).
Proof.
  unfold String_match. destruct (search r text 0) as [[i f]|]; [|discriminate].
  intros [= <-]. cbn [matched captured]. unfold substring.
  split; intros H; apply firstn_In, skipn_In in H; assumption.
Qed.

(** A text without an opening brace never yields a chart. *)
Lemma no_brace_no_chart text :
  free_of 123%N text = true -> extract text = Ok (None, text).
Proof.
  intros Hfree. apply free_of_In in Hfree.
  destruct (extract text) as [[[p|] t]|e] eqn:E.
  - exfalso. destruct (extract_payload_inv _ E) as [v [raw [Ha _]]].
    destruct Ha as [m Hm Hp Hacc _|m _ Hm Hp Hacc _];
      destruct (accepts_object _ Hacc) as [fields ->];
      apply parsed_object_has_brace in Hp;
      apply Hfree;
      destruct (match_parts_In _ _ 123%N Hm) as [H1 H2]; auto.
  - rewrite extract_first_accepted in E. injection E as E.
    pose proof (first_accepted_absent text) as Ha.
    rewrite E in Ha. specialize (Ha eq_refl). now injection Ha as ->.
  - rewrite extract_first_accepted in E. discriminate.
Qed.

Lemma hooked_twice message : hooked (hooked message) = hooked message.
Proof.
  unfold hooked at 2 3.
  destruct (strict_eq (role message) (VStr (js "assistant"))) eqn:Hr;
    [|unfold hooked; now rewrite Hr].
  destruct (content message) as [[| | | |text| |]|node] eqn:Hc;
    try (unfold hooked; now rewrite Hr, Hc).
  destruct (first_accepted text) as [[p|] t] eqn:Hf.
  - unfold hooked. cbn [role content]. now rewrite Hr.
  - unfold hooked. now rewrite Hr, Hc, Hf.
Qed.

(** ** When the renderer returns a chart *)

Lemma StockChart_needs_first_price E props x items price cp w :
  data props = VArr (x :: items) ->
  get_prop_opt x (js "price") = Ok price ->
  current_price props = VNum cp ->
  (forall fp, js_or price (VNum zero) <> VNum fp) ->
  exists e, StockChart E props w = (Throw e, w).
Proof.
  intros Hd Hp Hc Hf. past_guard Hd Hp. rewrite Hc.
  unfold arith, bind, lift, ret. cbn [ToNumber].
  destruct (ToNumber E (js_or price (VNum zero))) as [f|e];
    [|eexists; reflexivity].
  cbn [toFixed2].
  destruct (js_or price (VNum zero)) eqn:Hj; try (eexists; reflexivity).
  now destruct (Hf x0).
Qed.

(** With a non-empty data array the renderer returns a chart exactly when
    the current price is a Number and the first price is a Number or
    falsy; otherwise it throws.  It never shows the no-data state. *)
Lemma StockChart_chart_iff E props x items price w :
  data props = VArr (x :: items) ->
  get_prop_opt x (js "price") = Ok price ->
  ((exists cp fp, current_price props = VNum cp
                  /\ js_or price (VNum zero) = VNum fp)
   -> exists c, StockChart E props w = (Ok (Chart c), w))
  /\ (~ (exists cp fp, current_price props = VNum cp
                       /\ js_or price (VNum zero) = VNum fp)
      -> exists e, StockChart E props w = (Throw e, w)).
Proof.
  intros Hd Hp. split.
  - intros [cp [fp [Hc Hf]]]. eexists.
    apply (StockChart_numbers E props w Hd Hp Hf Hc).
  - intros Hn.
    destruct (current_price props) as [| | |cp| | |] eqn:Hc;
      try (apply (StockChart_needs_number E props w Hd);
           intros cp'; rewrite Hc; discriminate).
    apply (StockChart_needs_first_price E props w Hd Hp Hc).
    intros fp Hf. apply Hn. eauto.
Qed.

Lemma numbers_or_not props price :
  (exists cp fp, current_price props = VNum cp
                 /\ js_or price (VNum zero) = VNum fp)
  \/ ~ (exists cp fp, current_price props = VNum cp
                      /\ js_or price (VNum zero) = VNum fp).
Proof.
  destruct (current_price props);
    try (right; intros [cp [fp [H _]]]; discriminate).
  destruct (js_or price (VNum zero));
    try (right; intros [cp [fp [_ H]]]; discriminate).
  left. eauto.
Qed.

(** For an array, the no-data state is shown exactly when it is empty. *)
Lemma StockChart_no_data_iff E props items w :
  data props = VArr items ->
  (StockChart E props w = (Ok (NoData (ticker props)), w) <-> items = []).
Proof.
  intros Hd. split.
  - destruct items as [|x items]; [reflexivity|]. intros H. exfalso.
    destruct (get_prop_opt_total x (js "price")) as [price Hp].
    destruct (StockChart_chart_iff E props w Hd Hp) as [Hc Ht].
    destruct (numbers_or_not props price) as [Hy|Hn].
    + destruct (Hc Hy) as [c Hc']. congruence.
    + destruct (Ht Hn) as [e He]. congruence.
  - intros ->. now apply StockChart_empty.
Qed.

(** ** The figures are written with two decimals *)

Lemma digit_of_remainder n : JSON.is_digit (48 + n mod 10)%N = true.
Proof.
  unfold JSON.is_digit.
  assert (H : (n mod 10 < 10)%N) by (apply N.mod_lt; discriminate).
  revert H. generalize (n mod 10)%N. intros r H.
  apply andb_true_intro. split; apply N.leb_le; lia.
Qed.

Lemma decimal_aux_digits fuel : forall n acc,
  forallb JSON.is_digit acc = true ->
  forallb JSON.is_digit (decimal_aux fuel n acc) = true.
Proof.
  induction fuel as [|fuel IH]; intros n acc H; [assumption|].
  cbn [decimal_aux].
  assert (H' : forallb JSON.is_digit ((48 + n mod 10)%N :: acc) = true)
    by (cbn [forallb]; now rewrite digit_of_remainder).
  destruct (n <? 10)%N; [assumption|now apply IH].
Qed.

Lemma decimal_aux_length fuel : forall n acc,
  List.length acc < List.length (decimal_aux (S fuel) n acc).
Proof.
  induction fuel as [|fuel IH]; intros n acc.
  - cbn. destruct (n <? 10)%N; cbn; lia.
  - cbn [decimal_aux]. destruct (n <? 10)%N; [cbn; lia|].
    specialize (IH (n / 10)%N ((48 + n mod 10)%N :: acc)).
    cbn [List.length] in IH. cbn [decimal_aux] in IH. lia.
Qed.

Lemma fixed_digits_shape n :
  exists whole d1 d2,
    fixed_digits n = whole ++ js "." ++ [d1; d2]
    /\ whole <> []
    /\ forallb JSON.is_digit (whole ++ [d1; d2]) = true.
Proof.
  unfold fixed_digits.
  set (m := repeat 48%N (3 - List.length (decimal n)) ++ decimal n).
  assert (Hlen : 3 <= List.length m).
  { unfold m. rewrite length_app, repeat_length.
    unfold jsstring, code_unit. lia. }
  assert (Hdig : forallb JSON.is_digit m = true).
  { unfold m. rewrite forallb_app. apply andb_true_intro. split.
    - apply forallb_forall. intros x Hx. apply repeat_spec in Hx. now subst.
    - unfold decimal. now apply decimal_aux_digits. }
  set (k := List.length m) in *.
  assert (Hl : List.length (skipn (k - 2) m) = 2)
    by (rewrite length_skipn; fold k; lia).
  assert (Hf : List.length (firstn (k - 2) m) = k - 2)
    by (rewrite length_firstn; fold k; lia).
  clearbody k. clearbody m.
  destruct (skipn (k - 2) m) as [|d1 [|d2 [|d3 t]]] eqn:Hs;
    try discriminate.
  exists (firstn (k - 2) m), d1, d2. split; [reflexivity|]. split.
  - intros H. rewrite H in Hf. cbn in Hf. lia.
  - pose proof (firstn_skipn (k - 2) m) as Hfs. rewrite Hs in Hfs.
    unfold code_unit. now rewrite Hfs.
Qed.

Lemma toFixed2_two_decimals E x :
  fixed_range x -> two_decimals (Number_toFixed2 E x).
Proof.
  destruct x as [s|s| |s m e]; cbn [fixed_range]; try contradiction.
  - intros _. exists [], (js "0"), 48%N, 48%N.
    repeat split; [now left|discriminate].
  - intros H. cbn [Number_toFixed2]. rewrite H.
    destruct (fixed_digits_shape (hundredths m e)) as [wh [d1 [d2 [-> [Hw Hd]]]]].
    exists (if s then js "-" else []), wh, d1, d2.
    repeat split; trivial. destruct s; auto.
Qed.

(** The plus sign is put in front of a digit only, and a change that is
    not positive reads NaN or starts with a minus sign. *)
Lemma toFixed2_sign E x :
  (ge x zero = true -> fixed_range x ->
   exists d u, Number_toFixed2 E x = d :: u /\ JSON.is_digit d = true)
  /\ (ge x zero = false ->
      Number_toFixed2 E x = js "NaN"
      \/ exists u, Number_toFixed2 E x = js "-" ++ u).
Proof.
  split.
  - intros Hg Hr. destruct x as [s|s| |s m e]; cbn [fixed_range] in Hr;
      try contradiction.
    + exists 48%N, (js ".00"). now split.
    + destruct s; [discriminate|]. cbn [Number_toFixed2 app]. rewrite Hr.
      destruct (fixed_digits_shape (hundredths m e))
        as [wh [d1 [d2 [-> [Hw Hd]]]]].
      destruct wh as [|d wh]; [contradiction|].
      exists d, (wh ++ js "." ++ [d1; d2]). split; [reflexivity|].
      cbn [app forallb] in Hd. now apply andb_prop in Hd.
  - intros Hg. destruct x as [s|s| |s m e].
    + discriminate.
    + destruct s; [|discriminate]. right. now exists (js "Infinity").
    + now left.
    + destruct s; [|discriminate]. right. cbn [Number_toFixed2]. eauto.
Qed.

(** ** The first fenced block of a text *)

Lemma exec_lit_fails p : forall r g s pos,
  starts_with p s = false -> exec (lit p ++ r) g s pos = None.
Proof.
  induction p as [|c p IH]; intros r g s pos H; [discriminate|].
  cbn [lit map app exec]. destruct s as [|x s]; [reflexivity|].
  cbn [starts_with] in H. rewrite N.eqb_sym in H.
  destruct (N.eqb x c); [|reflexivity].
  cbn [andb] in H. now apply IH.
Qed.

Lemma exec_lit_only_fails p g s pos :
  starts_with p s = false -> exec (lit p) g s pos = None.
Proof.
  intros H. rewrite <- (app_nil_r (lit p)). now apply exec_lit_fails.
Qed.

Lemma chomp_length_cons c s :
  s <> [] -> List.length (chomp (c :: s)) = S (List.length (chomp s)).
Proof. destruct s; [contradiction|reflexivity]. Qed.

(** The lazy group stops in front of the first closing fence. *)
Lemma lazy_group_first_fence g post : forall rest pos,
  (forall i, i < List.length rest ->
     starts_with (js "```") (skipn i (rest ++ js "```" ++ post)) = false) ->
  star_lazy any (exec (Close :: Opt newline :: lit (js "```")) g)
            (rest ++ js "```" ++ post) pos
  = Some {| stop := pos + List.length rest + 3;
            group := (fst g, pos + List.length (chomp rest)) |}.
Proof.
  induction rest as [|c rest IH]; intros pos H.
  - cbn. rewrite !Nat.add_0_r. do 2 f_equal. lia.
  - assert (H0 : starts_with (js "```") ((c :: rest) ++ js "```" ++ post) = false)
      by (apply (H 0); cbn; lia).
    assert (Hk : rest <> [] ->
                 exec (Close :: Opt newline :: lit (js "```")) g
                      ((c :: rest) ++ js "```" ++ post) pos = None).
    { intros Hne. cbn [exec app optional].
      rewrite (@exec_lit_only_fails _ _ _ _ H0).
      destruct (newline c); [|reflexivity].
      rewrite exec_lit_only_fails; [reflexivity|].
      apply (H 1). destruct rest; [contradiction|cbn; lia]. }
    destruct rest as [|c2 rest].
    + (* the last character of the content *)
      cbn [app star_lazy exec optional chomp].
      cbn [app] in H0. rewrite (@exec_lit_only_fails _ _ _ _ H0).
      destruct (newline c) eqn:Hn.
      * cbn. do 2 f_equal; [lia|f_equal; lia].
      * cbn. do 2 f_equal; [lia|f_equal; lia].
    + specialize (Hk ltac:(discriminate)).
      change (star_lazy any ?k ((c :: ?s) ++ ?t) pos)
        with (match k ((c :: s) ++ t) pos with
              | Some r => Some r
              | None => star_lazy any k (s ++ t) (S pos)
              end).
      rewrite Hk. rewrite IH.
      * rewrite (@chomp_length_cons c (c2 :: rest)) by discriminate.
        cbn [List.length]. apply f_equal.
        apply f_equal2; [lia|apply f_equal2; [reflexivity|lia]].
      * intros i Hi. apply (H (S i)). cbn [List.length] in *. lia.
Qed.

Lemma chomp_split s : exists n2, s = chomp s ++ n2 /\ (n2 = [] \/ n2 = nl).
Proof.
  induction s as [|c s [n2 [Hs Hn]]]; [exists []; auto|].
  destruct s as [|c2 s].
  - cbn [chomp]. destruct (newline c) eqn:Hc.
    + exists [c]. split; [reflexivity|]. right. now apply newline_only.
    + exists []. auto.
  - exists n2. split; [|assumption].
    change (chomp (c :: c2 :: s)) with (c :: chomp (c2 :: s)).
    cbn [app]. now rewrite <- Hs.
Qed.

(** After the opening fence: all the white space, then the group up to
    the first closing fence. *)
Lemma exec_block_body g rest post : forall ws pos,
  forallb is_space ws = true ->
  (forall c s, rest = c :: s -> is_space c = false) ->
  (forall i, i < List.length rest ->
     starts_with (js "```") (skipn i (rest ++ js "```" ++ post)) = false) ->
  exec (Star true is_space :: Opt newline :: Open :: Star false any
          :: Close :: Opt newline :: lit (js "```"))
       g (ws ++ rest ++ js "```" ++ post) pos
  = Some {| stop := pos + List.length ws + List.length rest + 3;
            group := (pos + List.length ws,
                      pos + List.length ws + List.length (chomp rest)) |}.
Proof.
  intros ws. induction ws as [|w ws IH]; intros pos Hws Hrest Hfree.
  - cbn [app List.length]. rewrite !Nat.add_0_r.
    change (exec (Star true is_space :: ?r) g ?s pos)
      with (star_greedy is_space (exec r g) s pos).
    assert (Hhead : exists c s, rest ++ js "```" ++ post = c :: s
                                /\ is_space c = false).
    { destruct rest as [|c s].
      - exists backtick, (js "``" ++ post). now split.
      - exists c, (s ++ js "```" ++ post). split; [reflexivity|].
        now apply (Hrest c s). }
    destruct Hhead as [c [s [Es Hc]]]. rewrite Es.
    rewrite star_greedy_stop by assumption.
    change (exec (Opt newline :: ?r) g ?s ?p)
      with (optional newline (exec r g) s p).
    rewrite optional_skip by now apply newline_is_space.
    change (exec (Open :: Star false any :: ?r) g ?s ?p)
      with (star_lazy any (exec r (p, snd g)) s p).
    rewrite <- Es. now rewrite lazy_group_first_fence.
  - cbn [forallb] in Hws. apply andb_prop in Hws. destruct Hws as [Hw Hws].
    change (exec (Star true is_space :: ?r) g ?s pos)
      with (star_greedy is_space (exec r g) s pos).
    cbn [app]. apply star_greedy_take; [assumption|].
    change (star_greedy is_space (exec ?r g) ?s ?p)
      with (exec (Star true is_space :: r) g s p).
    rewrite IH by assumption. cbn [List.length].
    apply f_equal. apply f_equal2; [lia|apply f_equal2; lia].
Qed.

Lemma search_first r : forall pre s pos f,
  (forall i, i < List.length pre ->
     exec r (pos + i, pos + i) (skipn i (pre ++ s)) (pos + i) = None) ->
  exec r (pos + List.length pre, pos + List.length pre) s
       (pos + List.length pre) = Some f ->
  search r (pre ++ s) pos = Some (pos + List.length pre, f).
Proof.
  induction pre as [|c pre IH]; intros s pos f Hnone He.
  - cbn [app List.length] in *. rewrite Nat.add_0_r in *. now apply search_hit.
  - cbn [app search].
    pose proof (Hnone 0 ltac:(cbn; lia)) as H0.
    rewrite Nat.add_0_r in H0. cbn [skipn app] in H0. rewrite H0.
    cbn [List.length] in *.
    replace (pos + S (List.length pre)) with (S pos + List.length pre) in * by lia.
    apply IH; [|assumption].
    intros i Hi. specialize (Hnone (S i) ltac:(lia)).
    cbn [skipn app] in Hnone.
    now replace (pos + S i) with (S pos + i) in Hnone by lia.
Qed.

(** The first fenced block of a text: from the leftmost opening fence to
    the first three backticks after it. *)
Lemma first_fenced_block pre inner post :
  (forall i, i < List.length pre ->
     starts_with (js "```json")
       (skipn i (pre ++ js "```json" ++ inner ++ js "```" ++ post)) = false) ->
  (forall i, i < List.length inner ->
     starts_with (js "```") (skipn i (inner ++ js "```" ++ post)) = false) ->
  exists f,
    search jsonBlock (pre ++ js "```json" ++ inner ++ js "```" ++ post) 0
    = Some (List.length pre, f)
    /\ stop f = List.length pre + (7 + List.length inner + 3)
    /\ substring (pre ++ js "```json" ++ inner ++ js "```" ++ post)
                 (fst (group f)) (snd (group f))
       = block_source inner.
Proof.
  intros Hpre Hin.
  destruct (trim_start_split inner) as [ws [Ei Hws]].
  assert (Hrest : forall c s, trim_start inner = c :: s -> is_space c = false)
    by (intros c s E; now apply (@trim_start_head inner c s E)).
  unfold block_source. generalize dependent (trim_start inner).
  intros rest -> Hrest. 
  assert (Hfree : forall i, i < List.length rest ->
            starts_with (js "```") (skipn i (rest ++ js "```" ++ post)) = false).
  { intros i Hi.
    specialize (Hin (i + List.length ws)).
    rewrite length_app in Hin. specialize (Hin ltac:(lia)).
    rewrite <- app_assoc, <- skipn_skipn in Hin.
    now rewrite skipn_app, skipn_all, Nat.sub_diag in Hin. }
  exists {| stop := List.length pre + 7 + List.length ws + List.length rest + 3;
            group := (List.length pre + 7 + List.length ws,
                      List.length pre + 7 + List.length ws
                      + List.length (chomp rest)) |}.
  split; [|split].
  - apply (@search_first jsonBlock pre _ 0).
    + intros i Hi. cbn [Nat.add]. unfold jsonBlock.
      apply exec_lit_fails. now apply Hpre.
    + cbn [Nat.add]. unfold jsonBlock. rewrite exec_lit.
      rewrite <- !app_assoc. cbn [app].
      now apply exec_block_body.
  - cbn [stop]. rewrite length_app. lia.
  - cbn [group fst snd].
    destruct (chomp_split rest) as [n2 [Er _]].
    rewrite Er at 1.
    replace (pre ++ js "```json" ++ (ws ++ chomp rest ++ n2) ++ js "```" ++ post)
      with ((pre ++ js "```json" ++ ws) ++ chomp rest
            ++ (n2 ++ js "```" ++ post))
      by (now rewrite <- !app_assoc).
    apply substring_middle; rewrite !length_app;
      change (List.length (js "```json")) with 7; lia.
Qed.

(** [text.replace(match[0], '')] cuts the text at the match: the matched
    string does not occur before the place where the pattern matched. *)
Lemma replace_at_match r text i f :
  search r text 0 = Some (i, f) ->
  i <= stop f /\ stop f <= List.length text
  /\ matches r (substring text i (stop f))
  /\ remove_first (substring text i (stop f)) text
     = firstn i text ++ skipn (stop f) text.
Proof.
  intros Hs. destruct (search_inv _ _ _ Hs) as [d [-> [Hd [He Hmin]]]].
  cbn [Nat.add] in *.
  destruct (exec_sound _ _ _ _ He) as [n [Hst [Hn Hm]]].
  rewrite length_skipn in Hn.
  assert (Hsub : substring text d (stop f) = firstn n (skipn d text)).
  { unfold substring. rewrite Hst. now replace (d + n - d) with n by lia. }
  rewrite Hsub. split; [lia|]. split; [lia|]. split; [assumption|].
  assert (Hpost : skipn (stop f) text = skipn n (skipn d text))
    by (rewrite Hst, skipn_skipn; f_equal; lia).
  rewrite Hpost.
  assert (Ht : text = firstn d text ++ firstn n (skipn d text)
                      ++ skipn n (skipn d text))
    by (now rewrite !firstn_skipn).
  rewrite Ht at 2. apply remove_first_at.
  intros a b Hab. rewrite <- Ht in Hab. rewrite length_firstn.
  destruct (Nat.lt_ge_cases (List.length a) d) as [Hlt|Hge]; [|lia].
  exfalso. specialize (Hmin _ Hlt). rewrite Hab, skipn_occurrence in Hmin.
  revert Hmin. now apply exec_complete.
Qed.

Lemma firstn_prefix (a b : jsstring) : firstn (List.length a) (a ++ b) = a.
Proof. now rewrite firstn_app, firstn_all, Nat.sub_diag, app_nil_r. Qed.

(** The first fenced block is what the fenced attempt works on. *)
Lemma first_fenced_block_match pre inner post :
  (forall i, i < List.length pre ->
     starts_with (js "```json")
       (skipn i (pre ++ js "```json" ++ inner ++ js "```" ++ post)) = false) ->
  (forall i, i < List.length inner ->
     starts_with (js "```") (skipn i (inner ++ js "```" ++ post)) = false) ->
  String_match (pre ++ js "```json" ++ inner ++ js "```" ++ post) jsonBlock
  = Some {| matched := js "```json" ++ inner ++ js "```";
            captured := block_source inner |}
  /\ remove_first (js "```json" ++ inner ++ js "```")
                  (pre ++ js "```json" ++ inner ++ js "```" ++ post)
     = pre ++ post.
Proof.
  intros Hpre Hin.
  destruct (@first_fenced_block pre inner post Hpre Hin) as [f [Hs [Hst Hg]]].
  assert (Hm : substring (pre ++ js "```json" ++ inner ++ js "```" ++ post)
                         (List.length pre) (stop f)
               = js "```json" ++ inner ++ js "```").
  { replace (pre ++ js "```json" ++ inner ++ js "```" ++ post)
      with (pre ++ (js "```json" ++ inner ++ js "```") ++ post)
      by (now rewrite <- !app_assoc).
    apply substring_middle; [reflexivity|]. rewrite Hst, !length_app.
    change (List.length (js "```json")) with 7.
    change (List.length (js "```")) with 3. lia. }
  split.
  - unfold String_match. rewrite Hs. now rewrite Hm, Hg.
  - destruct (@replace_at_match _ _ _ _ Hs) as [_ [_ [_ Hr]]].
    rewrite Hm in Hr. rewrite Hr. rewrite firstn_prefix. f_equal.
    rewrite Hst.
    replace (pre ++ js "```json" ++ inner ++ js "```" ++ post)
      with ((pre ++ js "```json" ++ inner ++ js "```") ++ post)
      by (now rewrite <- !app_assoc).
    replace (List.length pre + (7 + List.length inner + 3))
      with (List.length (pre ++ js "```json" ++ inner ++ js "```")).
    + now rewrite skipn_app, skipn_all, Nat.sub_diag.
    + rewrite !length_app. change (List.length (js "```json")) with 7.
      change (List.length (js "```")) with 3. lia.
Qed.

Lemma occurs_before_spec p s n :
  occurs_before p s n = false <->
  forall i, i < n -> starts_with p (skipn i s) = false.
Proof.
  unfold occurs_before. split.
  - intros H i Hi.
    destruct (starts_with p (skipn i s)) eqn:E; [|reflexivity].
    assert (Hex : existsb (fun i => starts_with p (skipn i s)) (seq 0 n) = true).
    { apply existsb_exists. exists i. split; [|assumption].
      apply in_seq. lia. }
    congruence.
  - intros H.
    destruct (existsb (fun i => starts_with p (skipn i s)) (seq 0 n)) eqn:E;
      [|reflexivity].
    apply existsb_exists in E. destruct E as [i [Hi Hs]].
    apply in_seq in Hi. rewrite H in Hs by lia. discriminate.
Qed.

(** White space holds no opening fence. *)
Lemma space_before_fence pre s :
  forallb is_space pre = true ->
  occurs_before (js "```json") (pre ++ s) (List.length pre) = false.
Proof.
  intros Hpre. apply occurs_before_spec. intros i Hi.
  rewrite skipn_app. replace (i - List.length pre) with 0 by lia.
  cbn [skipn].
  destruct (skipn i pre) as [|c u] eqn:E.
  - apply (f_equal (@List.length _)) in E. rewrite length_skipn in E.
    cbn in E. lia.
  - assert (Hc : is_space c = true).
    { rewrite forallb_forall in Hpre. apply Hpre.
      apply (@skipn_In c i pre). rewrite E. now left. }
    cbn [app].
    change (starts_with (js "```json") (c :: u ++ s))
      with (N.eqb 96 c && starts_with (js "``json") (u ++ s)).
    destruct (N.eqb_spec 96 c) as [<-|]; [discriminate Hc|reflexivity].
Qed.

(** A fenced block that is the first of its text and whose source parses
    to an accepted object: the fenced attempt succeeds on it. *)
Lemma fenced_block_accepted pre inner post v :
  occurs_before (js "```json")
    (pre ++ js "```json" ++ inner ++ js "```" ++ post) (List.length pre)
  = false ->
  occurs_before (js "```") (inner ++ js "```" ++ post) (List.length inner)
  = false ->
  JSON.parse (block_source inner) = Ok v ->
  accepts v = true ->
  extract (pre ++ js "```json" ++ inner ++ js "```" ++ post)
  = Ok (Some (payload_of v), trim (pre ++ post)).
Proof.
  intros Hpre Hin Hp Ha.
  destruct (@first_fenced_block_match pre inner post
              (proj1 (occurs_before_spec _ _ _) Hpre)
              (proj1 (occurs_before_spec _ _ _) Hin)) as [Hm Hr].
  rewrite <- Hr. apply accepted_payload_extract.
  apply (@from_fenced _ _ _ _ Hm); [exact Hp|exact Ha|reflexivity].
Qed.

(** ** The first price and the sign of the change *)

Lemma first_price_js_or price fp :
  first_price price = Some fp -> js_or price (VNum zero) = VNum fp.
Proof.
  destruct price as [| |[]|p|[|c s]| |]; try discriminate;
    try (intros [= <-]; reflexivity).
  destruct p as [[]|[]| |[] m e]; intros [= <-]; reflexivity.
Qed.

Lemma first_price_none price :
  first_price price = None -> forall fp, js_or price (VNum zero) <> VNum fp.
Proof.
  destruct price as [| |[]|p|[|c s]| |]; try discriminate;
    intros _ fp; discriminate.
Qed.

Lemma Infinity_not_two_decimals : ~ two_decimals (js "Infinity").
Proof.
  intros [sign [whole [d1 [d2 [E _]]]]].
  apply (f_equal (@rev _)) in E. rewrite !rev_app_distr in E.
  cbn in E. discriminate.
Qed.

(** What [toFixed(2)] writes for a number that is not below zero. *)
Lemma toFixed2_not_negative E x :
  ge x zero = true ->
  Number_toFixed2 E x = js "Infinity"
  \/ (exists m e, x = S754_finite false m e /\ at_least_1e21 m e = true
                  /\ Number_toFixed2 E x = Number_toString E x)
  \/ (exists d u, Number_toFixed2 E x = d :: u /\ JSON.is_digit d = true).
Proof.
  intros Hg. destruct x as [s|s| |s m e].
  - right. right. exists 48%N, (js ".00"). now split.
  - destruct s; [discriminate|]. now left.
  - discriminate.
  - destruct s; [discriminate|].
    destruct (at_least_1e21 m e) eqn:Hr.
    + right. left. exists m, e. split; [reflexivity|]. split; [assumption|].
      cbn [Number_toFixed2 app]. now rewrite Hr.
    + right. right.
      apply (proj1 (toFixed2_sign E (S754_finite false m e)) Hg Hr).
Qed.

(** ** Claims on the extractor *)

(** C2.  For every text, [extract] returns what the design's search order
    gives: the result of the fenced attempt when it succeeds, otherwise
    the result of the inline attempt when that succeeds, otherwise the
    text unchanged with no payload; an attempt yields nothing exactly when
    its pattern does not match, the matched source does not parse, or the
    parsed object fails the acceptance test; the result holds at most one
    payload. *)
Theorem C2_fenced_first_then_inline text :
  extract text = Ok (first_accepted text)
  /\ (fenced_attempt text = None <-> attempt_fails text jsonBlock captured)
  /\ (inline_attempt text = None <-> attempt_fails text inlineJson matched).
Proof.
  split; [apply extract_first_accepted|].
  split; [apply fenced_attempt_None_iff | apply inline_attempt_None_iff].
Qed.

(** Two candidate fragments in one text: the fenced one wins and the
    inline one stays in the text; the inline one is taken when the fenced
    block is not a chart payload. *)
Example fenced_wins_over_inline :
  extract two_charts_text
  = Ok (Some (payload_of empty_data_object),
        js "and " ++ msft_json).
Proof. vm_compute. reflexivity. Qed.

Example inline_after_rejected_fence :
  extract list_then_chart_text
  = Ok (Some (payload_of msft_object),
        fence (jq "[1, 2]") ++ js " then").
Proof. vm_compute. reflexivity. Qed.

(** C3, as stated, fails on a fenced payload that is not what the fenced
    pattern captures.  A well-formed payload whose company name holds
    three backticks is cut at them: the fenced source does not parse, the
    inline pattern does not match (the discriminator comes after the
    data), and nothing is extracted.  A well-formed fenced payload that
    follows a fenced block holding [null] is found by the inline attempt
    only: the JSON is removed and its fence stays in the text, where
    removing the fenced fragment would leave the first block alone. *)
Lemma C3_fenced_payload_counterexample :
  (JSON.parse ticks_json = Ok ticks_object
   /\ field ticks_object (js "type") = VStr (js "stock_chart")
   /\ field ticks_object (js "ticker") = VStr (js "AAPL")
   /\ field ticks_object (js "data") = VArr []
   /\ extract (fence ticks_json) = Ok (None, fence ticks_json))
  /\ (JSON.parse bare_json = Ok bare_object
      /\ extract after_null_text
         = Ok (Some (payload_of bare_object),
               fence (js "null") ++ nl ++ fence [])
      /\ trim (remove_first (fence bare_json) after_null_text)
         = fence (js "null")).
Proof. repeat split; vm_compute; reflexivity. Qed.

(** C3 (amended).  For every text whose first fenced block, from the
    leftmost opening fence to the first three backticks after it, has as
    its source (the content without the white space after the opening
    fence and without one newline in front of the closing fence) the JSON
    of a well-formed payload (the sentinel discriminator, a ticker that
    is a non-empty string, a data array), [extract] returns the parsed
    payload: its ticker, data and current price, and its company name and
    period when they are non-empty strings; together with the text
    without that block, trimmed: the white space at its two ends is
    removed and nothing else. *)
Theorem C3_fenced_payload_extracted pre inner post v tk items :
  occurs_before (js "```json")
    (pre ++ js "```json" ++ inner ++ js "```" ++ post) (List.length pre)
  = false ->
  occurs_before (js "```") (inner ++ js "```" ++ post) (List.length inner)
  = false ->
  JSON.parse (block_source inner) = Ok v ->
  field v (js "type") = VStr (js "stock_chart") ->
  field v (js "ticker") = VStr tk -> tk <> [] ->
  field v (js "data") = VArr items ->
  exists p t a b,
    extract (pre ++ js "```json" ++ inner ++ js "```" ++ post)
    = Ok (Some p, t)
    /\ t = trim (pre ++ post)
    /\ pre ++ post = a ++ t ++ b
    /\ forallb is_space a = true /\ forallb is_space b = true
    /\ (forall c u, t = c :: u -> is_space c = false)
    /\ (forall u c, t = u ++ [c] -> is_space c = false)
    /\ ticker p = VStr tk
    /\ data p = VArr items
    /\ current_price p = field v (js "current_price")
    /\ (forall s, field v (js "company_name") = VStr s -> s <> [] ->
        company_name p = VStr s)
    /\ (forall s, field v (js "period") = VStr s -> s <> [] ->
        period p = VStr s).
Proof.
  intros Hpre Hin Hp Ht Hk Hne Hd.
  destruct (trim_spec (pre ++ post)) as [[a [b [Hs [Ha Hb]]]] [Hh Hl]].
  exists (payload_of v), (trim (pre ++ post)), a, b.
  split.
  - apply fenced_block_accepted; trivial.
    unfold accepts. rewrite Ht, Hk, Hd.
    destruct tk; [contradiction|reflexivity].
  - cbn [payload_of ticker data current_price company_name period].
    split; [reflexivity|]. split; [assumption|].
    split; [assumption|]. split; [assumption|].
    split; [assumption|]. split; [assumption|].
    split; [assumption|]. split; [assumption|]. split; [reflexivity|].
    split; intros s Hs' Hn; rewrite Hs'; (destruct s; [contradiction|reflexivity]).
Qed.

Lemma C3_fenced_payload_witness :
  exists p t a b,
    extract aapl_text = Ok (Some p, t)
    /\ t = js "Here is the chart:" ++ nl ++ nl
           ++ js "Prices rose over the month."
    /\ js "Here is the chart:" ++ nl ++ nl
       ++ js "Prices rose over the month.  " = a ++ t ++ b
    /\ forallb is_space a = true /\ forallb is_space b = true
    /\ ticker p = VStr (js "AAPL")
    /\ data p = data aapl_props
    /\ current_price p = VNum (of_decimal false 1555 (-1))
    /\ company_name p = VStr (js "Apple Inc.")
    /\ period p = VStr (js "1mo").
Proof.
  destruct (@C3_fenced_payload_extracted
              (js "Here is the chart:" ++ nl) (nl ++ aapl_json ++ nl)
              (nl ++ js "Prices rose over the month.  ")
              aapl_object (js "AAPL")
              (match data aapl_props with VArr items => items | _ => [] end))
    as [p [t [a [b [H1 [H2 [H3 [H4 [H5 [_ [_ [H6 [H7 [H8 [H9 H10]]]]]]]]]]]]]]];
    try (vm_compute; reflexivity); [discriminate|].
  exists p, t, a, b. split; [exact H1|]. split; [exact H2|].
  split; [exact H3|]. split; [exact H4|]. split; [exact H5|].
  split; [exact H6|]. split; [exact H7|]. split; [exact H8|].
  split; [apply H9|apply H10]; (reflexivity || discriminate).
Defined.

(** C4.  [textRenderer] never throws, whatever the text and the console;
    for every text in which no fragment is accepted, each attempt failing
    because its pattern does not match, the source does not parse or the
    parsed object fails the acceptance test, it returns the original text
    unchanged and [extract] returns no payload; a text without a backtick
    and without an opening brace holds no candidate fragment at all and is
    returned unchanged. *)
Theorem C4_no_fragment_text_unchanged :
  (forall text w, exists node w', textRenderer text w = (Ok node, w'))
  /\ (forall text,
        attempt_fails text jsonBlock captured ->
        attempt_fails text inlineJson matched ->
        extract text = Ok (None, text)
        /\ forall w, exists w', textRenderer text w = (Ok (Text text), w'))
  /\ (forall text,
        free_of backtick text = true -> free_of 123%N text = true ->
        extract text = Ok (None, text)).
Proof.
  split; [|split].
  - intros text w. destruct (textRenderer_first_accepted text w) as [w' H]. eauto.
  - intros text Hf Hi. split; [now apply extract_nothing|].
    intros w. destruct (textRenderer_first_accepted text w) as [w' H].
    exists w'. rewrite H. unfold first_accepted.
    apply fenced_attempt_None_iff in Hf. apply inline_attempt_None_iff in Hi.
    now rewrite Hf, Hi.
  - intros text H1 H2. destruct (plain_text_no_match text H1 H2) as [Hf Hi].
    apply extract_nothing; now apply no_match.
Qed.

Lemma C4_truncated_fragment_witness :
  (extract truncated_text = Ok (None, truncated_text)
   /\ forall w, exists w',
        textRenderer truncated_text w = (Ok (Text truncated_text), w'))
  /\ extract plain_text = Ok (None, plain_text).
Proof.
  destruct C4_no_fragment_text_unchanged as [_ [H2 H3]]. split.
  - apply (H2 truncated_text).
    + apply (@parse_failure truncated_text jsonBlock captured
               (fenced truncated_json) SyntaxError);
        vm_compute; reflexivity.
    + apply no_match. vm_compute. reflexivity.
  - apply (H3 plain_text); vm_compute; reflexivity.
Defined.

(** C7.  For every accepted payload, the props handed to the renderer have
    the ticker of the payload; a missing company name is replaced by the
    ticker and a missing period by "1mo". *)
Theorem C7_defaults_applied text v raw :
  accepted_payload text v raw ->
  exists p t,
    extract text = Ok (Some p, t)
    /\ ticker p = field v (js "ticker")
    /\ (field v (js "company_name") = VUndefined ->
        company_name p = field v (js "ticker"))
    /\ (field v (js "period") = VUndefined -> period p = VStr (js "1mo")).
Proof.
  intros H. exists (payload_of v), (trim (remove_first raw text)).
  split; [now apply accepted_payload_extract|].
  split; [reflexivity|].
  split; intros Hm; cbn [payload_of company_name period];
    rewrite Hm; reflexivity.
Qed.

Lemma C7_defaults_witness :
  exists p t,
    extract bare_text = Ok (Some p, t)
    /\ ticker p = VStr (js "AAPL")
    /\ company_name p = VStr (js "AAPL")
    /\ period p = VStr (js "1mo").
Proof.
  destruct (@C7_defaults_applied bare_text bare_object (fence bare_json))
    as [p [t [H1 [H2 [H3 H4]]]]].
  - apply (@from_fenced bare_text bare_object (fence bare_json)
             (fenced bare_json)); vm_compute; reflexivity.
  - exists p, t. split; [exact H1|]. split; [exact H2|].
    split; [apply H3; reflexivity | apply H4; reflexivity].
Defined.



(** ** Claims on the renderer *)

(** C1 (the code at the input of the claim).  With non-empty data and a
    first price of zero, of either sign, and whatever number the current
    price is, [StockChart] shows a chart whose percent change reads
    Infinity, -Infinity or NaN: the division by the zero start price is
    not guarded and no fallback is shown. *)
Theorem C1_zero_start_price_shows_non_finite_percent
  E props x items s cp w :
  data props = VArr (x :: items) ->
  get_prop_opt x (js "price") = Ok (VNum (S754_zero s)) ->
  current_price props = VNum cp ->
  exists c,
    StockChart E props w = (Ok (Chart c), w)
    /\ (percent_text c = js "Infinity"
        \/ percent_text c = js "-Infinity"
        \/ percent_text c = js "NaN").
Proof.
  intros Hd Hp Hc. eexists. split.
  - apply (StockChart_numbers E props w Hd Hp (fp := zero) eq_refl Hc).
  - cbn [percent_text].
    destruct cp as [[]|[]| |[] m e]; vm_compute; auto.
Qed.

Lemma C1_zero_start_price_witness :
  exists c,
    StockChart example_engine zero_start_props [] = (Ok (Chart c), [])
    /\ (percent_text c = js "Infinity"
        \/ percent_text c = js "-Infinity"
        \/ percent_text c = js "NaN").
Proof.
  apply (@C1_zero_start_price_shows_non_finite_percent
           example_engine zero_start_props
           (point "2024-01-01" (VNum zero) (VNum (of_Z 1))) [] false ten []);
    reflexivity.
Defined.

(** The same input reaches the renderer through the extractor. *)
Example zero_start_text_extracted :
  extract zero_start_text = Ok (Some zero_start_props, []).
Proof. vm_compute. reflexivity. Qed.

Example zero_start_percent_reads_Infinity :
  exists c,
    StockChart example_engine zero_start_props [] = (Ok (Chart c), [])
    /\ sign_text c ++ change_text c = js "+10.00"
    /\ percent_text c = js "Infinity".
Proof. eexists. repeat split. Qed.

(** C5, as stated, fails in four ways.  A falsy first price is replaced
    by 0: with a first price of NaN, or a data point without a price, and
    a current price of 10 the change reads 10.00 and the flag is positive,
    where the claimed formulas give NaN and a negative flag; with a first
    price of -0 the percent reads Infinity where the claimed formula gives
    -Infinity.  A first price that is a non-empty string, or a current
    price that is not a number, makes the renderer throw: nothing is
    computed.  And a figure that is not finite is not written with two
    decimal places: with a first price of 1 and a current price of
    Infinity, the value of the JSON literal 1e309, the change and the
    percent read Infinity. *)
Lemma C5_falsy_first_price_counterexample :
  (exists c,
     StockChart example_engine nan_start_props [] = (Ok (Chart c), [])
     /\ change_text c = js "10.00" /\ is_positive c = true)
  /\ (exists c,
        StockChart example_engine missing_price_props [] = (Ok (Chart c), [])
        /\ change_text c = js "10.00" /\ is_positive c = true)
  /\ (claimed_change example_engine ten NaN = js "NaN"
      /\ claimed_positive ten NaN = false)
  /\ (exists c,
        StockChart example_engine negative_zero_start_props []
        = (Ok (Chart c), [])
        /\ percent_text c = js "Infinity")
  /\ claimed_percent example_engine ten (S754_zero true) = js "-Infinity"
  /\ StockChart example_engine text_price_props [] = (Throw TypeError, [])
  /\ StockChart example_engine text_current_props [] = (Throw TypeError, [])
  /\ (extract infinite_price_text = Ok (Some infinite_price_props, [])
      /\ exists c,
           StockChart example_engine infinite_price_props []
           = (Ok (Chart c), [])
           /\ change_text c = js "Infinity"
           /\ percent_text c = js "Infinity"
           /\ ~ two_decimals (change_text c)
           /\ ~ two_decimals (percent_text c)).
Proof.
  repeat split;
    try (eexists; repeat split; try apply Infinity_not_two_decimals);
    vm_compute; reflexivity.
Qed.

(** C5 (amended).  For every payload with non-empty data whose current
    price is a number and whose [data[0].price] is a number or a falsy
    value (missing, null, false or the empty string), where [firstPrice]
    is [data[0].price], or 0 when that value is falsy (NaN, +0 and -0
    included): the renderer computes priceChange = current_price -
    firstPrice and a flag that is positive exactly when priceChange >= 0,
    with the plus sign shown exactly then; when [firstPrice] is not zero
    it computes priceChangePercent = (priceChange / firstPrice) * 100;
    both figures are written by toFixed(2), which gives exactly two
    decimal places when the figure is zero or finite and below 10^21 in
    magnitude; and when [data[0].price] is a truthy number, [firstPrice]
    is that price and the three figures are the claimed ones. *)
Theorem C5_derived_figures E props x items price fp cp w :
  data props = VArr (x :: items) ->
  get_prop_opt x (js "price") = Ok price ->
  first_price price = Some fp ->
  current_price props = VNum cp ->
  exists c,
    StockChart E props w = (Ok (Chart c), w)
    /\ change_text c = Number_toFixed2 E (sub cp fp)
    /\ (fixed_range (sub cp fp) -> two_decimals (change_text c))
    /\ (is_positive c = true <-> ge (sub cp fp) zero = true)
    /\ sign_text c = (if is_positive c then js "+" else [])
    /\ (Number.truthy fp = true ->
        percent_text c
        = Number_toFixed2 E (mul (div (sub cp fp) fp) (of_Z 100))
        /\ (fixed_range (mul (div (sub cp fp) fp) (of_Z 100)) ->
            two_decimals (percent_text c)))
    /\ (forall p, price = VNum p -> Number.truthy p = true ->
        fp = p
        /\ change_text c = claimed_change E cp p
        /\ percent_text c = claimed_percent E cp p
        /\ is_positive c = claimed_positive cp p).
Proof.
  intros Hd Hp Hf Hc. eexists. split.
  - apply (StockChart_numbers E props w Hd Hp (first_price_js_or _ Hf) Hc).
  - cbn [change_text percent_text is_positive sign_text].
    split; [reflexivity|].
    split; [apply toFixed2_two_decimals|].
    split; [tauto|]. split; [reflexivity|].
    split; [intros _; split; [reflexivity|apply toFixed2_two_decimals]|].
    intros p -> Hp'. cbn [first_price] in Hf.
    assert (fp = p) as ->
      by (destruct p; try discriminate; now injection Hf as <-).
    repeat split.
Qed.

Lemma C5_derived_figures_witness :
  exists c,
    StockChart example_engine aapl_props [] = (Ok (Chart c), [])
    /\ change_text c = js "5.25"
    /\ two_decimals (change_text c)
    /\ percent_text c = js "3.49"
    /\ two_decimals (percent_text c)
    /\ is_positive c = true
    /\ sign_text c = js "+".
Proof.
  destruct (@C5_derived_figures example_engine aapl_props
              (point "2024-01-01" (VNum (of_decimal false 15025 (-2)))
                     (VNum (of_Z 1000000)))
              [point "2024-01-31" (VNum (of_decimal false 1555 (-1)))
                     (VNum (of_Z 900000))]
              (VNum (of_decimal false 15025 (-2)))
              (of_decimal false 15025 (-2))
              (of_decimal false 1555 (-1)) []
              eq_refl eq_refl eq_refl eq_refl)
    as [c [H1 [H2 [H3 [H4 [H5 [H6 _]]]]]]].
  destruct (H6 eq_refl) as [H7 H8].
  exists c. split; [exact H1|].
  split; [rewrite H2; vm_compute; reflexivity|].
  split; [apply H3; vm_compute; reflexivity|].
  split; [rewrite H7; vm_compute; reflexivity|].
  split; [apply H8; vm_compute; reflexivity|].
  assert (Hpos : is_positive c = true) by (apply H4; vm_compute; reflexivity).
  split; [exact Hpos|]. rewrite H5, Hpos. reflexivity.
Defined.

(** C6.  For every payload whose data is the empty sequence the renderer
    returns the no-data block for the ticker and throws nothing; the
    outcome is the same for every engine and every value of the current
    price, a missing one included: no figure is derived and nothing is
    divided. *)
Theorem C6_empty_data_no_data_state E props w :
  data props = VArr [] ->
  StockChart E props w = (Ok (NoData (ticker props)), w)
  /\ forall E' cp,
       StockChart E' {| ticker := ticker props;
                        company_name := company_name props;
                        period := period props;
                        data := data props;
                        current_price := cp |} w
       = StockChart E props w.
Proof.
  intros Hd. split; [now apply StockChart_empty|].
  intros E' cp. rewrite !StockChart_empty by assumption. reflexivity.
Qed.

Lemma C6_empty_data_witness :
  StockChart example_engine empty_props []
  = (Ok (NoData (VStr (js "AAPL"))), []).
Proof.
  apply (@C6_empty_data_no_data_state example_engine empty_props []).
  reflexivity.
Defined.

(** The renderer leaves the console as it finds it
    ([StockChart_effect_free]); the extractor does not: a fenced block
    that does not parse is reported on the console. *)
Example textRenderer_writes_console :
  ~ effect_free (textRenderer truncated_text).
Proof.
  intros [o H]. specialize (H []). vm_compute in H. discriminate.
Qed.

(** C9.  The acceptance test reads the type, data and ticker fields only,
    so some text (the fenced payload without a current price) is accepted
    with [current_price] undefined and a non-empty data array; and the
    renderer throws on every accepted payload of that kind: it is not total
    over the payloads the extractor accepts. *)
Theorem C9_accepted_payload_without_price_throws :
  (forall v v',
     field v (js "type") = field v' (js "type") ->
     field v (js "data") = field v' (js "data") ->
     field v (js "ticker") = field v' (js "ticker") ->
     accepts v = accepts v')
  /\ (exists p t x items,
        extract bare_text = Ok (Some p, t)
        /\ current_price p = VUndefined /\ data p = VArr (x :: items))
  /\ (forall E text p t x items w,
        extract text = Ok (Some p, t) ->
        current_price p = VUndefined -> data p = VArr (x :: items) ->
        exists e, StockChart E p w = (Throw e, w)).
Proof.
  split; [|split].
  - intros v v' Ht Hd Hk. unfold accepts. now rewrite Ht, Hd, Hk.
  - exists (payload_of bare_object), [],
      (point "2024-01-01" (VNum (of_decimal false 15025 (-2)))
             (VNum (of_Z 1000000))), [].
    split; [vm_compute; reflexivity|]. split; reflexivity.
  - intros E text p t x items w _ Hc Hd.
    apply StockChart_needs_number with (x := x) (items := items); trivial.
    intros cp. rewrite Hc. discriminate.
Qed.

Lemma C9_accepted_payload_without_price_witness :
  exists e,
    StockChart example_engine (payload_of bare_object) [] = (Throw e, []).
Proof.
  apply (proj2 (proj2 C9_accepted_payload_without_price_throws)
           example_engine bare_text (payload_of bare_object) []
           (point "2024-01-01" (VNum (of_decimal false 15025 (-2)))
                  (VNum (of_Z 1000000))) [] []);
    vm_compute; reflexivity.
Defined.

(** * Further properties of the extractor *)

(** [text.match(r)] cuts its result out of the text: the result is in the
    language of the pattern and no substring in that language starts
    further left; the result is null exactly when no substring of the text
    is in the language. *)
Theorem match_is_leftmost_substring text r :
  match String_match text r with
  | Some m =>
      exists pre post,
        text = pre ++ matched m ++ post
        /\ matches r (matched m)
        /\ forall a m' b, text = a ++ m' ++ b -> matches r m' ->
                          List.length pre <= List.length a
  | None => forall a m b, text = a ++ m ++ b -> ~ matches r m
  end.
Proof.
  destruct (String_match text r) as [m|] eqn:H.
  - now apply String_match_leftmost.
  - now apply String_match_none.
Qed.

(** The fenced attempt is made exactly on the texts that hold the opening
    fence [```json] and, somewhere after it, three backticks. *)
Theorem fenced_pattern_matches_iff text :
  String_match text jsonBlock <> None <->
  exists a b c, text = a ++ js "```json" ++ b ++ js "```" ++ c.
Proof. apply jsonBlock_matches_iff. Qed.

(** What the fenced pattern hands to [JSON.parse]: the match is the
    opening fence, white space, the captured source, at most one newline
    and the closing fence; no three backticks start inside the captured
    source, so it ends in front of the first closing fence. *)
Theorem fenced_pattern_capture text m :
  String_match text jsonBlock = Some m ->
  exists pre ws n1 n2 post,
    text = pre ++ matched m ++ post
    /\ matched m
       = js "```json" ++ ws ++ n1 ++ captured m ++ n2 ++ js "```"
    /\ forallb is_space ws = true
    /\ (n1 = [] \/ n1 = nl) /\ (n2 = [] \/ n2 = nl)
    /\ forall i, i < List.length (captured m) ->
         starts_with (js "```")
                     (skipn i (captured m ++ n2 ++ js "```" ++ post))
         = false.
Proof. apply jsonBlock_capture. Qed.

Lemma fenced_pattern_capture_witness :
  exists pre ws n1 n2 post,
    aapl_text = pre ++ fence aapl_json ++ post
    /\ fence aapl_json
       = js "```json" ++ ws ++ n1 ++ aapl_json ++ n2 ++ js "```"
    /\ forallb is_space ws = true
    /\ (n1 = [] \/ n1 = nl) /\ (n2 = [] \/ n2 = nl)
    /\ forall i, i < List.length aapl_json ->
         starts_with (js "```")
                     (skipn i (aapl_json ++ n2 ++ js "```" ++ post))
         = false.
Proof.
  apply (@fenced_pattern_capture aapl_text (fenced aapl_json)).
  vm_compute. reflexivity.
Defined.

(** The inline attempt is made on the leftmost fragment of the text that
    has the shape of the inline pattern, and on no text without such a
    fragment. *)
Theorem inline_pattern_matches text :
  match String_match text inlineJson with
  | Some m =>
      exists pre post,
        text = pre ++ matched m ++ post /\ inline_shape (matched m)
        /\ forall a m' b, text = a ++ m' ++ b -> inline_shape m' ->
                          List.length pre <= List.length a
  | None => forall a m b, text = a ++ m ++ b -> ~ inline_shape m
  end.
Proof.
  destruct (String_match text inlineJson) as [m|] eqn:H.
  - destruct (String_match_leftmost _ _ H) as [pre [post [Ht [Hm Hl]]]].
    exists pre, post. split; [assumption|].
    split; [now apply inlineJson_language|].
    intros a m' b Hab Hs. apply (Hl a m' b Hab).
    now apply inlineJson_language.
  - intros a m b Ht Hm. apply (proj1 (String_match_none _ _) H a m b Ht).
    now apply inlineJson_language.
Qed.

(** [text.replace(match[0], '')] cuts the text at the place where the
    pattern matched: when the match starts at index [i] and ends before
    index [stop], the result is the text before [i] followed by the text
    from [stop] on, since the matched string does not occur in the text
    before [i]. *)
Theorem replace_removes_the_match text r i f :
  search r text 0 = Some (i, f) ->
  exists m,
    String_match text r = Some m
    /\ matched m = substring text i (stop f)
    /\ i <= stop f /\ stop f <= List.length text
    /\ remove_first (matched m) text = firstn i text ++ skipn (stop f) text.
Proof.
  intros Hs. destruct (@replace_at_match _ _ _ _ Hs) as [H1 [H2 [_ H3]]].
  unfold String_match. rewrite Hs. eexists. split; [reflexivity|].
  cbn [matched]. auto.
Qed.

Lemma replace_removes_the_match_witness :
  exists m,
    String_match list_then_chart_text inlineJson = Some m
    /\ matched m = substring list_then_chart_text 24 77
    /\ 24 <= 77 /\ 77 <= List.length list_then_chart_text
    /\ remove_first (matched m) list_then_chart_text
       = firstn 24 list_then_chart_text ++ skipn 77 list_then_chart_text.
Proof.
  apply (@replace_removes_the_match list_then_chart_text inlineJson 24
           {| stop := 77; group := (24, 24) |}).
  vm_compute. reflexivity.
Defined.

(** The prose of a chart block is the text around the accepted fragment,
    trimmed: the fragment is the match of the fenced or of the inline
    pattern, from index [i] to index [stop], its source parses to the
    object of the payload, and the prose is the text before [i] followed
    by the text from [stop] on, without the white space at both ends and
    with nothing else removed. *)
Theorem chart_block_prose text p t :
  extract text = Ok (Some p, t) ->
  exists r i f v a b,
    (r = jsonBlock \/ r = inlineJson)
    /\ search r text 0 = Some (i, f)
    /\ accepted_payload text v (substring text i (stop f))
    /\ ticker p = field v (js "ticker") /\ data p = field v (js "data")
    /\ t = trim (firstn i text ++ skipn (stop f) text)
    /\ firstn i text ++ skipn (stop f) text = a ++ t ++ b
    /\ forallb is_space a = true /\ forallb is_space b = true
    /\ (forall c u, t = c :: u -> is_space c = false)
    /\ (forall u c, t = u ++ [c] -> is_space c = false).
Proof.
  intros H. destruct (@extract_payload_inv _ _ _ H) as [v [raw [Ha [-> ->]]]].
  destruct (@accepted_payload_match _ _ _ Ha) as [r [m [Hm [Hraw Hr]]]].
  unfold String_match in Hm.
  destruct (search r text 0) as [[i f]|] eqn:Hs; [|discriminate].
  injection Hm as <-. cbn [matched] in Hraw. subst raw.
  destruct (@replace_at_match _ _ _ _ Hs) as [_ [_ [_ Hrem]]].
  destruct (trim_spec (firstn i text ++ skipn (stop f) text))
    as [[a [b [Hsplit [Hsa Hsb]]]] [Hh Hl]].
  exists r, i, f, v, a, b. rewrite Hrem.
  split; [assumption|]. split; [exact Hs|]. split; [assumption|].
  split; [reflexivity|]. split; [reflexivity|]. split; [reflexivity|].
  split; [assumption|]. auto.
Qed.

Lemma chart_block_prose_witness :
  exists r i f v a b,
    (r = jsonBlock \/ r = inlineJson)
    /\ search r aapl_text 0 = Some (i, f)
    /\ accepted_payload aapl_text v (substring aapl_text i (stop f))
    /\ ticker (payload_of aapl_object) = field v (js "ticker")
    /\ data (payload_of aapl_object) = field v (js "data")
    /\ js "Here is the chart:" ++ nl ++ nl ++ js "Prices rose over the month."
       = trim (firstn i aapl_text ++ skipn (stop f) aapl_text)
    /\ firstn i aapl_text ++ skipn (stop f) aapl_text
       = a ++ (js "Here is the chart:" ++ nl ++ nl
               ++ js "Prices rose over the month.") ++ b
    /\ forallb is_space a = true /\ forallb is_space b = true
    /\ (forall c u,
          js "Here is the chart:" ++ nl ++ nl ++ js "Prices rose over the month."
          = c :: u -> is_space c = false)
    /\ (forall u c,
          js "Here is the chart:" ++ nl ++ nl ++ js "Prices rose over the month."
          = u ++ [c] -> is_space c = false).
Proof.
  apply (@chart_block_prose aapl_text (payload_of aapl_object)).
  vm_compute. reflexivity.
Defined.

(** [textRenderer] writes to the console one report for the fenced
    attempt when its source does not parse or parses to null, then, if
    the fenced attempt yields nothing, one for the inline attempt; the
    handler of the outer try block never runs, and nothing is written
    when the fenced payload is accepted. *)
Theorem textRenderer_console_report text w :
  let added :=
    fenced_log text
    ++ match fenced_attempt text with
       | Some _ => []
       | None => inline_log text
       end in
  snd (textRenderer text w) = w ++ added
  /\ List.length added <= 2
  /\ (forall entry, In entry added ->
        message entry <> js "Error in textRenderer:")
  /\ (fenced_attempt text <> None -> added = []).
Proof.
  cbn zeta. rewrite textRenderer_console. cbn [snd].
  split; [reflexivity|].
  assert (Hr : forall msg source,
             List.length (report msg source) <= 1
             /\ forall entry, In entry (report msg source) ->
                              message entry = msg).
  { intros msg source. unfold report.
    destruct (parse_error source); cbn; split; try lia.
    intros entry [<-|[]]. reflexivity. }
  assert (Hf : List.length (fenced_log text) <= 1
               /\ forall entry, In entry (fenced_log text) ->
                    message entry = js "Error parsing JSON from code block:").
  { unfold fenced_log. destruct (String_match text jsonBlock);
      [apply Hr|]. cbn. split; [lia|intros entry []]. }
  assert (Hi : List.length (inline_log text) <= 1
               /\ forall entry, In entry (inline_log text) ->
                    message entry = js "Error parsing inline JSON:").
  { unfold inline_log. destruct (String_match text inlineJson);
      [apply Hr|]. cbn. split; [lia|intros entry []]. }
  destruct Hf as [Hf1 Hf2], Hi as [Hi1 Hi2].
  split; [|split].
  - rewrite length_app. destruct (fenced_attempt text); cbn; lia.
  - intros entry Hin Hm. apply in_app_or in Hin. destruct Hin as [Hin|Hin].
    + rewrite (Hf2 _ Hin) in Hm. discriminate.
    + destruct (fenced_attempt text); [destruct Hin|].
      rewrite (Hi2 _ Hin) in Hm. discriminate.
  - intros Hne. unfold fenced_attempt, fenced_log, report, parse_error, judge in *.
    destruct (String_match text jsonBlock) as [m|]; [|contradiction].
    destruct (JSON.parse (captured m)) as [v|]; [|contradiction].
    destruct (accepts v) eqn:Ha; [|contradiction].
    destruct v; try discriminate; reflexivity.
Qed.

(** Every payload handed to the renderer has a truthy ticker, data,
    company name and period. *)
Theorem extracted_payload_truthy_fields text p t :
  extract text = Ok (Some p, t) ->
  truthy (ticker p) = true /\ truthy (data p) = true
  /\ truthy (company_name p) = true /\ truthy (period p) = true.
Proof. apply extracted_payload_truthy. Qed.

Lemma extracted_payload_truthy_fields_witness :
  truthy (ticker (payload_of bare_object)) = true
  /\ truthy (data (payload_of bare_object)) = true
  /\ truthy (company_name (payload_of bare_object)) = true
  /\ truthy (period (payload_of bare_object)) = true.
Proof.
  apply (@extracted_payload_truthy_fields bare_text (payload_of bare_object) []).
  vm_compute. reflexivity.
Defined.

(** A text without an opening brace never yields a chart, whatever else
    it holds: it is returned as it is. *)
Theorem no_chart_without_brace text :
  free_of 123%N text = true -> extract text = Ok (None, text).
Proof. apply no_brace_no_chart. Qed.

Lemma no_chart_without_brace_witness :
  extract (fence (jq "[1, 2]")) = Ok (None, fence (jq "[1, 2]")).
Proof.
  apply (@no_chart_without_brace (fence (jq "[1, 2]"))).
  vm_compute. reflexivity.
Defined.

(** A message that is one fenced block with white space around it at
    most, whose content holds no three backticks and whose source is the
    JSON of a well-formed payload, leaves no prose: the chart is shown
    alone. *)
Theorem payload_alone_leaves_no_prose pre inner post v tk items :
  forallb is_space pre = true -> forallb is_space post = true ->
  occurs_before (js "```") (inner ++ js "```" ++ post) (List.length inner)
  = false ->
  JSON.parse (block_source inner) = Ok v ->
  field v (js "type") = VStr (js "stock_chart") ->
  field v (js "ticker") = VStr tk -> tk <> [] ->
  field v (js "data") = VArr items ->
  extract (pre ++ js "```json" ++ inner ++ js "```" ++ post)
  = Ok (Some (payload_of v), []).
Proof.
  intros Hpre Hpost Hin Hp Ht Hk Hne Hd.
  rewrite (@fenced_block_accepted pre inner post v); trivial.
  - rewrite all_space_trim; [reflexivity|].
    rewrite forallb_app. now rewrite Hpre, Hpost.
  - now apply space_before_fence.
  - unfold accepts. rewrite Ht, Hk, Hd. destruct tk; [contradiction|reflexivity].
Qed.

Lemma payload_alone_leaves_no_prose_witness :
  extract (nl ++ fence bare_json ++ js "  ")
  = Ok (Some (payload_of bare_object), []).
Proof.
  apply (@payload_alone_leaves_no_prose nl (nl ++ bare_json ++ nl) (js "  ")
           bare_object (js "AAPL") bare_series);
    try (vm_compute; reflexivity).
  discriminate.
Defined.

(** * Further properties of the message hook *)

(** [makeSystemMessage] never throws; it returns the message itself unless
    the message is from the assistant, has a string content and a payload
    is accepted in that string, and then it replaces the content by the
    chart block and keeps the role and the other properties. *)
Theorem makeSystemMessage_returns_hooked message w :
  exists w', makeSystemMessage message w = (Ok (hooked message), w').
Proof. apply makeSystemMessage_hooked. Qed.

(** The hook leaves its own result alone: a message that went through it
    comes back as it is when it goes through it again. *)
Theorem makeSystemMessage_idempotent message w :
  exists m' w' w'',
    makeSystemMessage message w = (Ok m', w')
    /\ makeSystemMessage m' w' = (Ok m', w'').
Proof.
  destruct (makeSystemMessage_hooked message w) as [w' H1].
  destruct (makeSystemMessage_hooked (hooked message) w') as [w'' H2].
  exists (hooked message), w', w''. split; [assumption|].
  now rewrite H2, hooked_twice.
Qed.

(** * Further properties of the renderer *)

(** With a non-empty data array the renderer returns a chart when the
    current price is a Number and the first price is a Number or falsy,
    and throws in every other case. *)
Theorem StockChart_chart_or_throw E props x items price w :
  data props = VArr (x :: items) ->
  get_prop_opt x (js "price") = Ok price ->
  ((exists cp fp, current_price props = VNum cp
                  /\ js_or price (VNum zero) = VNum fp)
   -> exists c, StockChart E props w = (Ok (Chart c), w))
  /\ (~ (exists cp fp, current_price props = VNum cp
                       /\ js_or price (VNum zero) = VNum fp)
      -> exists e, StockChart E props w = (Throw e, w)).
Proof. apply StockChart_chart_iff. Qed.

Lemma StockChart_chart_or_throw_witness :
  exists e, StockChart example_engine text_price_props [] = (Throw e, []).
Proof.
  apply (proj2 (@StockChart_chart_or_throw example_engine text_price_props
                  (point "2024-01-01" (VStr (js "150.25")) (VNum (of_Z 1)))
                  [] (VStr (js "150.25")) [] eq_refl eq_refl)).
  intros [cp [fp [_ H]]]. vm_compute in H. discriminate.
Defined.

(** For a data array, the no-data state is shown exactly when the array
    is empty. *)
Theorem StockChart_no_data_exactly_when_empty E props items w :
  data props = VArr items ->
  (StockChart E props w = (Ok (NoData (ticker props)), w) <-> items = []).
Proof. apply StockChart_no_data_iff. Qed.

Lemma StockChart_no_data_exactly_when_empty_witness :
  StockChart example_engine empty_props [] = (Ok (NoData (ticker empty_props)), [])
  <-> @nil value = [].
Proof.
  apply (@StockChart_no_data_exactly_when_empty example_engine empty_props [] []).
  reflexivity.
Defined.

(** Each figure of the chart that comes from a zero or from a finite
    number of magnitude below 10^21 is written with a sign or none, at
    least one digit, a point and exactly two digits. *)
Theorem chart_figures_two_decimals E props x items price fp cp w :
  data props = VArr (x :: items) ->
  get_prop_opt x (js "price") = Ok price ->
  js_or price (VNum zero) = VNum fp ->
  current_price props = VNum cp ->
  exists c,
    StockChart E props w = (Ok (Chart c), w)
    /\ (fixed_range cp ->
        two_decimals (price_text c) /\ two_decimals (current_text c))
    /\ (fixed_range fp -> two_decimals (start_text c))
    /\ (fixed_range (sub cp fp) -> two_decimals (change_text c))
    /\ (fixed_range (mul (div (sub cp fp) fp) (of_Z 100)) ->
        two_decimals (percent_text c)).
Proof.
  intros Hd Hp Hf Hc. eexists. split.
  - apply (StockChart_numbers E props w Hd Hp Hf Hc).
  - cbn [price_text current_text start_text change_text percent_text].
    split; [intros H; split; now apply toFixed2_two_decimals|].
    split; [intros H; now apply toFixed2_two_decimals|].
    split; intros H; now apply toFixed2_two_decimals.
Qed.

Lemma chart_figures_two_decimals_witness :
  exists c,
    StockChart example_engine aapl_props [] = (Ok (Chart c), [])
    /\ two_decimals (price_text c) /\ two_decimals (start_text c)
    /\ two_decimals (change_text c) /\ two_decimals (percent_text c).
Proof.
  destruct (@chart_figures_two_decimals example_engine aapl_props
              (point "2024-01-01" (VNum (of_decimal false 15025 (-2)))
                     (VNum (of_Z 1000000)))
              [point "2024-01-31" (VNum (of_decimal false 1555 (-1)))
                     (VNum (of_Z 900000))]
              (VNum (of_decimal false 15025 (-2)))
              (of_decimal false 15025 (-2))
              (of_decimal false 1555 (-1)) []
              eq_refl eq_refl eq_refl eq_refl)
    as [c [H1 [H2 [H3 [H4 H5]]]]].
  exists c. split; [exact H1|].
  split; [apply H2; vm_compute; reflexivity|].
  split; [apply H3; vm_compute; reflexivity|].
  split; [apply H4; vm_compute; reflexivity|].
  apply H5; vm_compute; reflexivity.
Defined.

(** When the change is marked positive the plus sign is shown, in front of
    a digit, or of Infinity when the change is infinite, or of the
    engine's ToString form when the change is finite and at least 10^21;
    a change that is not marked positive has no plus sign and reads NaN
    or starts with a minus sign. *)
Theorem chart_change_sign E props x items price fp cp w :
  data props = VArr (x :: items) ->
  get_prop_opt x (js "price") = Ok price ->
  js_or price (VNum zero) = VNum fp ->
  current_price props = VNum cp ->
  exists c,
    StockChart E props w = (Ok (Chart c), w)
    /\ (is_positive c = true ->
        sign_text c = js "+"
        /\ (change_text c = js "Infinity"
            \/ (exists m e,
                  sub cp fp = S754_finite false m e
                  /\ at_least_1e21 m e = true
                  /\ change_text c = Number_toString E (sub cp fp))
            \/ exists d u, change_text c = d :: u /\ JSON.is_digit d = true))
    /\ (is_positive c = false ->
        sign_text c = []
        /\ (change_text c = js "NaN"
            \/ exists u, change_text c = js "-" ++ u)).
Proof.
  intros Hd Hp Hf Hc. eexists. split.
  - apply (StockChart_numbers E props w Hd Hp Hf Hc).
  - cbn [is_positive sign_text change_text].
    split; intros Hg; rewrite Hg; (split; [reflexivity|]).
    + now apply toFixed2_not_negative.
    + now apply (proj2 (toFixed2_sign E (sub cp fp))).
Qed.

Lemma chart_change_sign_witness :
  (exists c,
     StockChart example_engine falling_props [] = (Ok (Chart c), [])
     /\ sign_text c = []
     /\ (change_text c = js "NaN" \/ exists u, change_text c = js "-" ++ u))
  /\ (exists c,
        StockChart example_engine infinite_price_props [] = (Ok (Chart c), [])
        /\ sign_text c = js "+" /\ change_text c = js "Infinity").
Proof.
  split.
  - destruct (@chart_change_sign example_engine falling_props
                (point "2024-01-01" (VNum (of_decimal false 15025 (-2)))
                       (VNum (of_Z 1)))
                [] (VNum (of_decimal false 15025 (-2)))
                (of_decimal false 15025 (-2)) (of_Z 140) []
                eq_refl eq_refl eq_refl eq_refl)
      as [c [H1 [_ H3]]].
    exists c. split; [exact H1|]. apply H3.
    assert (H := H1). vm_compute in H. injection H as <-. reflexivity.
  - destruct (@chart_change_sign example_engine infinite_price_props
                (point "2024-01-01" (VNum (of_Z 1)) (VNum (of_Z 1)))
                [] (VNum (of_Z 1)) (of_Z 1) Infinity []
                eq_refl eq_refl eq_refl eq_refl)
      as [c [H1 [H2 _]]].
    exists c. split; [exact H1|].
    assert (H := H1). vm_compute in H. injection H as <-.
    split; reflexivity.
Defined.

(** The figures come from the price of the first point, the current price
    and the number of points alone: the dates, the volumes and the prices
    of the later points, the last one included, change none of them. *)
Theorem figures_from_first_and_current E props props' x x' items items' w w' :
  data props = VArr (x :: items) ->
  data props' = VArr (x' :: items') ->
  get_prop_opt x (js "price") = get_prop_opt x' (js "price") ->
  List.length items = List.length items' ->
  current_price props = current_price props' ->
  figures (fst (StockChart E props w)) = figures (fst (StockChart E props' w')).
Proof.
  intros Hd Hd' Hx Hl Hc.
  destruct (get_prop_opt_total x (js "price")) as [price Hp].
  assert (Hp' : get_prop_opt x' (js "price") = Ok price) by congruence.
  destruct (numbers_or_not props price) as [[cp [fp [Hcp Hfp]]]|Hn].
  - rewrite (StockChart_numbers E props w Hd Hp Hfp Hcp).
    rewrite Hc in Hcp.
    rewrite (StockChart_numbers E props' w' Hd' Hp' Hfp Hcp).
    cbn. rewrite Hl. reflexivity.
  - destruct (proj2 (StockChart_chart_iff E props w Hd Hp) Hn) as [e ->].
    assert (Hn' : ~ (exists cp fp, current_price props' = VNum cp
                       /\ js_or price (VNum zero) = VNum fp))
      by (rewrite <- Hc; exact Hn).
    destruct (proj2 (StockChart_chart_iff E props' w' Hd' Hp') Hn') as [e' ->].
    reflexivity.
Qed.

Lemma figures_from_first_and_current_witness :
  figures (fst (StockChart example_engine aapl_props []))
  = figures (fst (StockChart example_engine other_last_props [])).
Proof.
  apply (@figures_from_first_and_current example_engine
           aapl_props other_last_props
           (point "2024-01-01" (VNum (of_decimal false 15025 (-2)))
                  (VNum (of_Z 1000000)))
           (point "2024-01-01" (VNum (of_decimal false 15025 (-2)))
                  (VNum (of_Z 1000000)))
           [point "2024-01-31" (VNum (of_decimal false 1555 (-1)))
                  (VNum (of_Z 900000))]
           [point "2024-02-15" (VNum (of_Z 99)) (VNum (of_Z 5))] [] []);
    reflexivity.
Defined.

